(** * AIVideoSubtitleGenerator: the chunked transcription pipeline of [src/index.tsx]

    A shallow embedding of the pure and the stateful parts of [index.tsx]:
    timestamp and ETA formatting, the 16-bit PCM / RIFF encoder, the chunk
    loop of [transcribeAudio], the terminal branches of [generateSubtitles]
    and the file name chosen by [downloadVttFile].

    Conventions.
    - A JavaScript [number] is an exact rational or one of the three
      non-finite values.  Rounding of binary64 arithmetic is not modelled;
      the loop counter, the scale factors 32767 and 32768 and Float32 samples
      are all exactly representable, so the operations the theorems below
      depend on are exact in the source as well.
    - A JavaScript string is the list of its UTF-16 code units.
    - A [DataView] over an [ArrayBuffer] is a list of bytes updated in place;
      an access outside the buffer throws [RangeError].
    - Code that can throw or loop returns a [result]: a value, the exception
      thrown, or [OutOfFuel] when the loop bound of the model is reached;
      the theorems show that the bounds chosen are never reached.
    - [await] points are the only places where the click handler of the
      cancel button can run; an environment record says at which of them it
      does, and what the decoder and the remote model answer. *)

From Stdlib Require Import ZArith QArith Qround Qminmax Lqa Lia.
From Stdlib Require Import String Ascii Bool.
From Stdlib Require Import Decimal DecimalString.
From Stdlib Require Import List.
Import ListNotations.

Open Scope string_scope.
Open Scope list_scope.
Open Scope Z_scope.

(* ================================================================= *)
(** ** Numbers *)

Inductive number : Type :=
  | Fin (q : Q)
  | PosInf
  | NegInf
  | NaN.

Definition isNaN (x : number) : bool :=
  match x with NaN => true | _ => false end.

Definition isFinite (x : number) : bool :=
  match x with Fin _ => true | _ => false end.

Definition Qltb (a b : Q) : bool :=
  match (a ?= b)%Q with Lt => true | _ => false end.

(** [a < b]; every comparison with [NaN] is false. *)
Definition num_lt (a b : number) : bool :=
  match a, b with
  | NaN, _ | _, NaN => false
  | Fin x, Fin y => Qltb x y
  | Fin _, PosInf => true
  | Fin _, NegInf => false
  | PosInf, _ => false
  | NegInf, NegInf => false
  | NegInf, _ => true
  end.

Definition Math_min (a b : number) : number :=
  match a, b with
  | NaN, _ | _, NaN => NaN
  | NegInf, _ | _, NegInf => NegInf
  | PosInf, y => y
  | x, PosInf => x
  | Fin x, Fin y => Fin (Qmin x y)
  end.

Definition Math_max (a b : number) : number :=
  match a, b with
  | NaN, _ | _, NaN => NaN
  | PosInf, _ | _, PosInf => PosInf
  | NegInf, y => y
  | x, NegInf => x
  | Fin x, Fin y => Fin (Qmax x y)
  end.

Definition num_add (a b : number) : number :=
  match a, b with
  | NaN, _ | _, NaN => NaN
  | PosInf, NegInf | NegInf, PosInf => NaN
  | PosInf, _ | _, PosInf => PosInf
  | NegInf, _ | _, NegInf => NegInf
  | Fin x, Fin y => Fin (x + y)
  end.

Definition inf_times (positive : bool) (q : Q) : number :=
  match (q ?= 0)%Q with
  | Eq => NaN
  | Gt => if positive then PosInf else NegInf
  | Lt => if positive then NegInf else PosInf
  end.

Definition num_mul (a b : number) : number :=
  match a, b with
  | NaN, _ | _, NaN => NaN
  | Fin x, Fin y => Fin (x * y)
  | PosInf, Fin y => inf_times true y
  | NegInf, Fin y => inf_times false y
  | Fin x, PosInf => inf_times true x
  | Fin x, NegInf => inf_times false x
  | PosInf, PosInf | NegInf, NegInf => PosInf
  | PosInf, NegInf | NegInf, PosInf => NegInf
  end.

Definition num (z : Z) : number := Fin (inject_Z z).

(** Truncation toward zero (the integer part). *)
Definition Qtrunc (q : Q) : Z := Z.quot (Qnum q) (Z.pos (Qden q)).

(** [Math.floor], [Math.ceil] and [Math.round] at finite arguments. *)
Definition Math_floor (q : Q) : Z := Qfloor q.
Definition Math_ceil (q : Q) : Z := Qceiling q.
Definition Math_round (q : Q) : Z := Qfloor (q + (1 # 2)).

(** The [%] operator at finite arguments: the remainder has the sign of the
    dividend. *)
Definition num_rem (a b : Q) : Q := (a - b * inject_Z (Qtrunc (a / b)))%Q.

(** Modular conversions of the typed-array setters and of [x | 0]. *)
Definition ToUintN (bits : Z) (x : number) : Z :=
  match x with
  | Fin q => Qtrunc q mod 2 ^ bits
  | _ => 0
  end.

Definition ToInt32 (x : number) : Z :=
  let u := ToUintN 32 x in
  if u <? 2 ^ 31 then u else u - 2 ^ 32.

(* ================================================================= *)
(** ** Strings *)

(** UTF-16 code units. *)
Definition jsstring : Type := list Z.

Definition code (c : ascii) : Z := Z.of_N (N_of_ascii c).

Definition lit (s : string) : jsstring := map code (list_ascii_of_string s).

(** [String(n)] for an integral [n]. *)
Definition String_of_int (n : Z) : jsstring :=
  lit (NilZero.string_of_int (Z.to_int n)).

(** [s.padStart(n, c)] with a one-character filler. *)
Definition padStart (n : nat) (c : Z) (s : jsstring) : jsstring :=
  repeat c (n - length s) ++ s.

(** [s.substr(start, len)] and [s.substring(0, end)] for non-negative
    in-range [start]; [substring] clamps a negative end to 0. *)
Definition substr (s : jsstring) (start len : nat) : jsstring :=
  firstn len (skipn start s).

Definition substring0 (s : jsstring) (e : Z) : jsstring :=
  firstn (Z.to_nat e) s.

(* ================================================================= *)
(** ** [formatRemainingTime] (lines 108-117) *)

Definition formatRemainingTime (seconds : number) : jsstring :=
  if isNaN seconds || num_lt seconds (Fin 0) || negb (isFinite seconds) then
    lit "--:--"
  else
    match seconds with
    | Fin q =>
        let minutes := Math_floor (q / 60) in
        let remainingSeconds := Math_round (num_rem q 60) in
        let formattedMinutes := padStart 2 (code "0") (String_of_int minutes) in
        let formattedSeconds := padStart 2 (code "0") (String_of_int remainingSeconds) in
        formattedMinutes ++ lit ":" ++ formattedSeconds
    | _ => lit "NaN:NaN" (* not reached: the guard above has returned *)
    end.

(* ================================================================= *)
(** ** Exceptions and results *)

Inductive exn : Type :=
  | RangeError          (* DataView access out of bounds, invalid Date *)
  | TypeError           (* a method called on [undefined] *)
  | NotSupportedError   (* [createBuffer] outside its nominal ranges *)
  | EncodingError       (* [decodeAudioData] rejected, or the file could not be read *)
  | NoFileError         (* the [Error] thrown when [currentFile] is null *)
  | RemoteError.        (* [generateContent] rejected *)

(** The outcome of running a piece of code: a value, an exception, or the
    loop bound of the model reached before the code returned. *)
Inductive result (A : Type) : Type :=
  | Ok (a : A)
  | Throw (e : exn)
  | OutOfFuel.

Arguments Ok {A} a.
Arguments Throw {A} e.
Arguments OutOfFuel {A}.

Definition bind {A B : Type} (r : result A) (k : A -> result B) : result B :=
  match r with
  | Ok a => k a
  | Throw e => Throw e
  | OutOfFuel => OutOfFuel
  end.

Notation "x <- r ;; k" := (bind r (fun x => k))
  (at level 61, r at next level, right associativity).

(* ================================================================= *)
(** ** [Date]: the part used by [formatTimeVTT] *)

Module Date.

Definition msPerDay : Z := 86400000.
Definition msPerHour : Z := 3600000.
Definition msPerMinute : Z := 60000.
Definition msPerSecond : Z := 1000.

Definition Day (t : Z) : Z := t / msPerDay.
Definition HourFromTime (t : Z) : Z := (t / msPerHour) mod 24.
Definition MinFromTime (t : Z) : Z := (t / msPerMinute) mod 60.
Definition SecFromTime (t : Z) : Z := (t / msPerSecond) mod 60.
Definition msFromTime (t : Z) : Z := t mod msPerSecond.

(** Year, month (1-12) and day of the month of a day number counted from
    1970-01-01, in the proleptic Gregorian calendar: the decomposition into
    400-year eras that start on 1 March. *)
Definition civil (day : Z) : Z * Z * Z :=
  let z := day + 719468 in
  let era := z / 146097 in
  let doe := z mod 146097 in
  let yoe := (doe - doe / 1460 + doe / 36524 - doe / 146096) / 365 in
  let doy := doe - (365 * yoe + yoe / 4 - yoe / 100) in
  let mp := (5 * doy + 2) / 153 in
  let d := doy - (153 * mp + 2) / 5 + 1 in
  let m := if mp <? 10 then mp + 3 else mp - 9 in
  let y := yoe + era * 400 + (if m <=? 2 then 1 else 0) in
  (y, m, d).

(** A time value is a number of milliseconds since the epoch, or [None]
    for an invalid date ([NaN]). *)
Definition t : Type := option Z.

(** [MakeTime(hour, min, sec, ms)]: [sec] goes through
    [ToIntegerOrInfinity], which drops its fractional part. *)
Definition MakeTime (hour min : Z) (sec : number) (ms : Z) : option Z :=
  match sec with
  | Fin q => Some (hour * msPerHour + min * msPerMinute + Qtrunc q * msPerSecond + ms)
  | _ => None
  end.

Definition MakeDate (day time : Z) : Z := day * msPerDay + time.

Definition TimeClip (time : Z) : option Z :=
  if Z.abs time >? 8640000000000000 then None else Some time.

Section LocalTime.

(** Offset of local time from UTC in milliseconds, taken constant over
    the dates involved. *)
Variable LocalTZA : Z.

Definition LocalTime (tv : Z) : Z := tv + LocalTZA.
Definition UTC (tv : Z) : Z := tv - LocalTZA.

(** [date.setSeconds(sec)]: replaces the seconds field of the local
    time and keeps its hour, minute and millisecond fields. *)
Definition setSeconds (date : t) (sec : number) : t :=
  match date with
  | None => None
  | Some tv =>
      let tl := LocalTime tv in
      match MakeTime (HourFromTime tl) (MinFromTime tl) sec (msFromTime tl) with
      | None => None
      | Some time => TimeClip (UTC (MakeDate (Day tl) time))
      end
  end.

End LocalTime.

Definition pad (n : nat) (v : Z) : jsstring :=
  padStart n (code "0") (String_of_int v).

Definition year_string (y : Z) : jsstring :=
  if (0 <=? y) && (y <=? 9999) then pad 4 y
  else (if y <? 0 then lit "-" else lit "+") ++ pad 6 (Z.abs y).

(** [date.toISOString()]: [YYYY-MM-DDTHH:mm:ss.sssZ] in UTC. *)
Definition toISOString (date : t) : result jsstring :=
  match date with
  | None => Throw RangeError
  | Some tv =>
      let '(y, m, d) := civil (Day tv) in
      Ok (year_string y ++ lit "-" ++ pad 2 m ++ lit "-" ++ pad 2 d ++ lit "T"
          ++ pad 2 (HourFromTime tv) ++ lit ":" ++ pad 2 (MinFromTime tv) ++ lit ":"
          ++ pad 2 (SecFromTime tv) ++ lit "." ++ pad 3 (msFromTime tv) ++ lit "Z")
  end.

End Date.

(* ================================================================= *)
(** ** [formatTimeVTT] (lines 99-103) *)

Definition formatTimeVTT (LocalTZA : Z) (seconds : number) : result jsstring :=
  let date : Date.t := Some 0 in
  let date := Date.setSeconds LocalTZA date seconds in
  s <- Date.toISOString date ;;
  Ok (substr s 11 12).

(* ================================================================= *)
(** ** [audioBufferToWavBase64] (lines 122-181) *)

(** An [AudioBuffer]: [frames] is its [length] attribute, [channelData] the
    arrays returned by [getChannelData(0)], [getChannelData(1)], ... *)
Record AudioBuffer : Type := {
  sampleRate : Q;
  frames : Z;
  channelData : list (list number);
  duration : Q
}.

Definition numberOfChannels (buffer : AudioBuffer) : Z :=
  Z.of_nat (length (channelData buffer)).

(** The [n] low-order bytes of [v], least significant first. *)
Fixpoint le_bytes (n : nat) (v : Z) : list Z :=
  match n with
  | O => []
  | S n' => v mod 256 :: le_bytes n' (v / 256)
  end.

(** Stores [bs] at byte offset [pos] of the buffer behind a [DataView]. *)
Definition DataView_set (view : list Z) (pos : Z) (bs : list Z) : result (list Z) :=
  if (0 <=? pos) && (pos + Z.of_nat (length bs) <=? Z.of_nat (length view)) then
    Ok (firstn (Z.to_nat pos) view ++ bs ++ skipn (Z.to_nat pos + length bs) view)
  else Throw RangeError.

(** Reads an unsigned little-endian integer of [n] bytes at offset [pos]. *)
Fixpoint le_value (bs : list Z) : Z :=
  match bs with
  | [] => 0
  | b :: rest => b + 256 * le_value rest
  end.

Definition DataView_getUint (n : nat) (view : list Z) (pos : nat) : Z :=
  le_value (firstn n (skipn pos view)).

(** The closure state of [audioBufferToWavBase64]: the view and the write
    position [pos]. *)
Record Writer : Type := { view : list Z; pos : Z }.

Definition setUint16 (data : number) (w : Writer) : result Writer :=
  v <- DataView_set (view w) (pos w) (le_bytes 2 (ToUintN 16 data)) ;;
  Ok {| view := v; pos := pos w + 2 |}.

Definition setUint32 (data : number) (w : Writer) : result Writer :=
  v <- DataView_set (view w) (pos w) (le_bytes 4 (ToUintN 32 data)) ;;
  Ok {| view := v; pos := pos w + 4 |}.

(** [view.setInt16(pos, sample, true); pos += 2]: the two's complement
    bytes of a 16-bit integer are those of its residue modulo 2^16. *)
Definition setInt16 (data : number) (w : Writer) : result Writer :=
  v <- DataView_set (view w) (pos w) (le_bytes 2 (ToUintN 16 data)) ;;
  Ok {| view := v; pos := pos w + 2 |}.

(** Lines 133-145. *)
Definition write_header (buffer : AudioBuffer) (length : Z) (w : Writer) : result Writer :=
  let numOfChan := numberOfChannels buffer in
  w <- setUint32 (num 0x46464952) w ;;
  w <- setUint32 (num (length - 8)) w ;;
  w <- setUint32 (num 0x45564157) w ;;
  w <- setUint32 (num 0x20746d66) w ;;
  w <- setUint32 (num 16) w ;;
  w <- setUint16 (num 1) w ;;
  w <- setUint16 (num numOfChan) w ;;
  w <- setUint32 (Fin (sampleRate buffer)) w ;;
  w <- setUint32 (Fin (sampleRate buffer * 2 * inject_Z numOfChan)) w ;;
  w <- setUint16 (num (numOfChan * 2)) w ;;
  w <- setUint16 (num 16) w ;;
  w <- setUint32 (num 0x61746164) w ;;
  setUint32 (num (length - pos w - 4)) w.

(** [channels[i][offset]] as a number: a read past the end is [undefined],
    which [Math.min] turns into [NaN]. *)
Definition sample_at (channel : list number) (offset : Z) : number :=
  nth (Z.to_nat offset) channel NaN.

(** Lines 163-164: clamp to [-1, 1], scale, truncate with [| 0]. *)
Definition quantize (x : number) : Z :=
  let sample := Math_max (num (-1)) (Math_min (num 1) x) in
  ToInt32 (if num_lt (num_add (Fin 0.5) sample) (num 0)
           then num_mul sample (num 32768)
           else num_mul sample (num 32767)).

(** The inner [for] loop over the channels (lines 162-167). *)
Fixpoint write_frame (channels : list (list number)) (offset : Z) (w : Writer)
  : result Writer :=
  match channels with
  | [] => Ok w
  | channel :: rest =>
      let sample := quantize (sample_at channel offset) in
      w <- setInt16 (num sample) w ;;
      write_frame rest offset w
  end.

(** The [while (pos < length)] loop (lines 161-169). *)
Fixpoint write_frames (fuel : nat) (length : Z) (channels : list (list number))
    (offset : Z) (w : Writer) : result Writer :=
  match fuel with
  | O => OutOfFuel
  | S fuel' =>
      if pos w <? length then
        w <- write_frame channels offset w ;;
        write_frames fuel' length channels (offset + 1) w
      else Ok w
  end.

(** The bytes of the [ArrayBuffer] when the loops are done (lines 123-171). *)
Definition audioBufferToWav (buffer : AudioBuffer) : result (list Z) :=
  let numOfChan := numberOfChannels buffer in
  let length := frames buffer * numOfChan * 2 + 44 in
  let w := {| view := repeat 0 (Z.to_nat length); pos := 0 |} in
  w <- write_header buffer length w ;;
  let channels := channelData buffer in
  w <- write_frames (S (Z.to_nat (frames buffer))) length channels 0 w ;;
  Ok (view w).

Definition CHUNK_SIZE : Z := 0x8000.

(** Lines 173-179: the binary string, built 0x8000 bytes at a time. *)
Fixpoint binary_string (fuel : nat) (u8 : list Z) (i : Z) (binary : jsstring)
  : result jsstring :=
  match fuel with
  | O => OutOfFuel
  | S fuel' =>
      if i <? Z.of_nat (length u8) then
        let chunk := firstn (Z.to_nat CHUNK_SIZE) (skipn (Z.to_nat i) u8) in
        binary_string fuel' u8 (i + CHUNK_SIZE) (binary ++ chunk)
      else Ok binary
  end.

Definition base64_alphabet : jsstring :=
  lit "ABCDEFGHIJKLMNOPQRSTUVWXYZabcdefghijklmnopqrstuvwxyz0123456789+/".

Definition base64_digit (v : Z) : Z := nth (Z.to_nat v) base64_alphabet 0.

(** [btoa] on a string of code units below 256. *)
Fixpoint btoa (binary : jsstring) : jsstring :=
  match binary with
  | [] => []
  | [a] =>
      [base64_digit (a / 4); base64_digit (a mod 4 * 16); code "="; code "="]
  | [a; b] =>
      [base64_digit (a / 4); base64_digit (a mod 4 * 16 + b / 16);
       base64_digit (b mod 16 * 4); code "="]
  | a :: b :: c :: rest =>
      base64_digit (a / 4) :: base64_digit (a mod 4 * 16 + b / 16)
      :: base64_digit (b mod 16 * 4 + c / 64) :: base64_digit (c mod 64)
      :: btoa rest
  end.

Definition audioBufferToWavBase64 (buffer : AudioBuffer) : result jsstring :=
  u8 <- audioBufferToWav buffer ;;
  binary <- binary_string (S (length u8)) u8 0 [] ;;
  Ok (btoa binary).

(* ================================================================= *)
(** ** Application state (lines 16-21) and its environment *)

Definition LF : Z := 10.

(** [WhiteSpace] and [LineTerminator] code units, the ones [trim] removes. *)
Definition is_white_space (c : Z) : bool :=
  ((9 <=? c) && (c <=? 13)) || (c =? 32) || (c =? 160) || (c =? 0x1680)
  || ((0x2000 <=? c) && (c <=? 0x200A)) || (c =? 0x2028) || (c =? 0x2029)
  || (c =? 0x202F) || (c =? 0x205F) || (c =? 0x3000) || (c =? 0xFEFF).

Fixpoint trimStart (s : jsstring) : jsstring :=
  match s with
  | c :: rest => if is_white_space c then trimStart rest else s
  | [] => []
  end.

Definition trim (s : jsstring) : jsstring :=
  rev (trimStart (rev (trimStart s))).

(** [s.replace(/\n/g, ' ')]. *)
Definition replace_newlines (s : jsstring) : jsstring :=
  map (fun c => if c =? LF then 32 else c) s.

(** The messages passed to [updateStatus], by the line that sends them. *)
Inductive Status : Type :=
  | MsgEmpty                (* line 70 *)
  | MsgAiInitFailed         (* line 31 *)
  | MsgVideoLoaded          (* line 92 *)
  | MsgDecoding             (* line 192 *)
  | MsgChunk (currentChunk chunkCount : Z) (etr : option jsstring) (* lines 214, 216 *)
  | MsgAiNotInitialized     (* line 256 *)
  | MsgStarting             (* line 266 *)
  | MsgError                (* line 274: an error occurred, try again *)
  | MsgCancelled            (* line 278: generation was cancelled *)
  | MsgCompleted            (* line 306: generation completed *)
  | MsgNoSubtitles          (* line 310: no subtitles could be generated *)
  | MsgErrorOrCancelled     (* line 310: an error occurred or it was cancelled *)
  | MsgNothingToDownload    (* line 322 *)
  | MsgCancelling.          (* line 353 *)

Record File : Type := { name : jsstring }.

(** One [generateContent] call as the remote model sees it, with the time
    range of the chunk it carries. *)
Record Request : Type := {
  chunk : Z;
  startTime : Q;
  endTime : Q;
  data : jsstring
}.

(** The module-level variables and what the page shows.  [requests] is a
    ghost log of the remote calls made so far; [subtitleTrack] is the
    document behind the [track] element attached to the player. *)
Record App : Type := {
  ai : bool;
  isGenerationCancelled : bool;
  generatedVttContent : option jsstring;
  currentFile : option File;
  statusText : Status;
  subtitleTrack : option jsstring;
  requests : list Request
}.

Definition updateStatus (message : Status) (app : App) : App :=
  {| ai := ai app; isGenerationCancelled := isGenerationCancelled app;
     generatedVttContent := generatedVttContent app; currentFile := currentFile app;
     statusText := message; subtitleTrack := subtitleTrack app;
     requests := requests app |}.

Definition set_isGenerationCancelled (b : bool) (app : App) : App :=
  {| ai := ai app; isGenerationCancelled := b;
     generatedVttContent := generatedVttContent app; currentFile := currentFile app;
     statusText := statusText app; subtitleTrack := subtitleTrack app;
     requests := requests app |}.

Definition send (r : Request) (app : App) : App :=
  {| ai := ai app; isGenerationCancelled := isGenerationCancelled app;
     generatedVttContent := generatedVttContent app; currentFile := currentFile app;
     statusText := statusText app; subtitleTrack := subtitleTrack app;
     requests := requests app ++ [r] |}.

(** Lines 288-306: the document is stored and attached to the player. *)
Definition publish (vttContent : jsstring) (app : App) : App :=
  {| ai := ai app; isGenerationCancelled := isGenerationCancelled app;
     generatedVttContent := Some vttContent; currentFile := currentFile app;
     statusText := MsgCompleted; subtitleTrack := Some vttContent;
     requests := requests app |}.

(** The click handler of the cancel button (lines 350-354). *)
Definition cancel_click (app : App) : App :=
  updateStatus MsgCancelling (set_isGenerationCancelled true app).

(** What [response.text] is when the call resolves, or a rejection. *)
Inductive Reply : Type :=
  | Resolve (text : option jsstring)
  | Reject.

(** What happens at the [await] points of one run: the outcome of reading
    and decoding the file, the reply to the call made for each chunk
    (numbered from 1 as [currentChunk]), whether the cancel button is
    clicked while the run is suspended there, and the readings of
    [Date.now()] (index 0 at line 267, index [k] for chunk [k]). *)
Record Env : Type := {
  decodeAudioData : result AudioBuffer;
  cancelWhileDecoding : bool;
  generateContent : Z -> Reply;
  cancelDuringCall : Z -> bool;
  now : Z -> Q
}.

(* ================================================================= *)
(** ** [transcribeAudio] (lines 186-249) *)

Definition CHUNK_SECONDS : Q := 30.

(** The iteration space of the loop at line 201 with lines 204-205: the
    [(startTime, endTime)] pairs of the chunks of a recording of
    [audioDuration] seconds, were no iteration to break or throw. *)
Fixpoint chunk_ranges (fuel : nat) (audioDuration i : Q) : result (list (Q * Q)) :=
  match fuel with
  | O => OutOfFuel
  | S fuel' =>
      if Qltb i audioDuration then
        let startTime := i in
        let endTime := Qmin (i + CHUNK_SECONDS) audioDuration in
        rest <- chunk_ranges fuel' audioDuration (i + CHUNK_SECONDS) ;;
        Ok ((startTime, endTime) :: rest)
      else Ok []
  end.

(** Enough iterations for the loop to run to its exit test. *)
Definition loop_bound (audioDuration : Q) : nat :=
  S (Z.to_nat (Qceiling (audioDuration / CHUNK_SECONDS))).

Definition chunkRanges (audioDuration : Q) : result (list (Q * Q)) :=
  chunk_ranges (loop_bound audioDuration) audioDuration 0.

(** [audioContext.createBuffer]: zero-filled channels; arguments outside
    the nominal ranges raise [NotSupportedError]. *)
Definition createBuffer (numberOfChannels length : Z) (sampleRate : Q)
  : result AudioBuffer :=
  if (1 <=? numberOfChannels) && (1 <=? length) && Qltb 0 sampleRate then
    Ok {| sampleRate := sampleRate; frames := length;
          channelData := repeat (repeat (num 0) (Z.to_nat length))
                                (Z.to_nat numberOfChannels);
          duration := inject_Z length / sampleRate |}
  else Throw NotSupportedError.

(** [a.subarray(b, e)] for [0 <= b <= e]; the end is clamped to the array. *)
Definition subarray (a : list number) (b e : Z) : list number :=
  firstn (Z.to_nat (e - b)) (skipn (Z.to_nat b) a).

(** [target.set(source)]: copies [source] to the start of [target]. *)
Definition TypedArray_set (target source : list number) : result (list number) :=
  if (length source <=? length target)%nat then
    Ok (source ++ skipn (length source) target)
  else Throw RangeError.

(** Lines 228-232. *)
Fixpoint copy_channels (mainChannels chunkChannels : list (list number))
    (startOffset frameCount : Z) : result (list (list number)) :=
  match mainChannels, chunkChannels with
  | channelData :: ms, chunkChannelData :: cs =>
      d <- TypedArray_set chunkChannelData
             (subarray channelData startOffset (startOffset + frameCount)) ;;
      rest <- copy_channels ms cs startOffset frameCount ;;
      Ok (d :: rest)
  | _, _ => Ok chunkChannels
  end.

Definition with_channelData (b : AudioBuffer) (d : list (list number)) : AudioBuffer :=
  {| sampleRate := sampleRate b; frames := frames b; channelData := d;
     duration := duration b |}.

Definition header : jsstring := lit "WEBVTT" ++ [LF; LF].

Section Run.

Variable LocalTZA : Z.
Variable env : Env.

(** Lines 219-234: the payload of one chunk. *)
Definition chunk_payload (mainAudioBuffer : AudioBuffer) (startTime endTime : Q)
  : result jsstring :=
  let frameCount := Math_ceil ((endTime - startTime) * sampleRate mainAudioBuffer) in
  let startOffset := Math_floor (startTime * sampleRate mainAudioBuffer) in
  chunkBuffer <- createBuffer (numberOfChannels mainAudioBuffer) frameCount
                   (sampleRate mainAudioBuffer) ;;
  d <- copy_channels (channelData mainAudioBuffer) (channelData chunkBuffer)
         startOffset frameCount ;;
  audioBufferToWavBase64 (with_channelData chunkBuffer d).

(** The cue appended at line 245. *)
Definition cue (startTime endTime : Q) (subtitleText : jsstring) : result jsstring :=
  a <- formatTimeVTT LocalTZA (Fin startTime) ;;
  b <- formatTimeVTT LocalTZA (Fin endTime) ;;
  Ok (a ++ lit " --> " ++ b ++ [LF] ++ subtitleText ++ [LF; LF]).

(** One iteration from line 204 on; the result is the new [vttContent]. *)
Definition chunk_body (mainAudioBuffer : AudioBuffer) (generationStartTime : Q)
    (chunkCount : Z) (i : Q) (app : App) (vttContent : jsstring)
  : App * result jsstring :=
  let audioDuration := duration mainAudioBuffer in
  let startTime := i in
  let endTime := Qmin (i + CHUNK_SECONDS) audioDuration in
  let currentChunk := Math_floor (i / CHUNK_SECONDS) + 1 in
  let app :=
    if 1 <? currentChunk then
      let elapsedTime := ((now env currentChunk - generationStartTime) / 1000)%Q in
      let averageTimePerChunk := (elapsedTime / inject_Z (currentChunk - 1))%Q in
      let remainingChunks := chunkCount - (currentChunk - 1) in
      let etrSeconds := (averageTimePerChunk * inject_Z remainingChunks)%Q in
      let formattedEtr := formatRemainingTime (Fin etrSeconds) in
      updateStatus (MsgChunk currentChunk chunkCount (Some formattedEtr)) app
    else updateStatus (MsgChunk currentChunk chunkCount None) app in
  match chunk_payload mainAudioBuffer startTime endTime with
  | Ok base64Wav =>
      (* await ai.models.generateContent(...) *)
      let app := send {| chunk := currentChunk; startTime := startTime;
                         endTime := endTime; data := base64Wav |} app in
      let app := if cancelDuringCall env currentChunk then cancel_click app else app in
      match generateContent env currentChunk with
      | Reject => (app, Throw RemoteError)
      | Resolve None => (app, Throw TypeError)
      | Resolve (Some text) =>
          let subtitleText := replace_newlines (trim text) in
          match subtitleText with
          | [] => (app, Ok vttContent)
          | _ :: _ =>
              (app, c <- cue startTime endTime subtitleText ;; Ok (vttContent ++ c))
          end
      end
  | Throw e => (app, Throw e)
  | OutOfFuel => (app, OutOfFuel)
  end.

(** The loop at lines 201-247. *)
Fixpoint chunk_loop (fuel : nat) (mainAudioBuffer : AudioBuffer)
    (generationStartTime : Q) (chunkCount : Z) (i : Q) (app : App)
    (vttContent : jsstring) : App * result jsstring :=
  match fuel with
  | O => (app, OutOfFuel)
  | S fuel' =>
      if Qltb i (duration mainAudioBuffer) then
        if isGenerationCancelled app then (app, Ok vttContent)
        else
          match chunk_body mainAudioBuffer generationStartTime chunkCount i app
                  vttContent with
          | (app, Ok vttContent) =>
              chunk_loop fuel' mainAudioBuffer generationStartTime chunkCount
                (i + CHUNK_SECONDS) app vttContent
          | stopped => stopped
          end
      else (app, Ok vttContent)
  end.

Definition transcribeAudio (generationStartTime : Q) (app : App)
  : App * result jsstring :=
  match currentFile app with
  | None => (app, Throw NoFileError)
  | Some file =>
      let app := updateStatus MsgDecoding app in
      (* await file.arrayBuffer(); await audioContext.decodeAudioData(...) *)
      let app := if cancelWhileDecoding env then cancel_click app else app in
      match decodeAudioData env with
      | Ok mainAudioBuffer =>
          let audioDuration := duration mainAudioBuffer in
          let vttContent := header in
          let chunkCount := Math_ceil (audioDuration / CHUNK_SECONDS) in
          chunk_loop (loop_bound audioDuration) mainAudioBuffer generationStartTime
            chunkCount 0 app vttContent
      | Throw e => (app, Throw e)
      | OutOfFuel => (app, OutOfFuel)
      end
  end.

(* =============================================================== *)
(** ** [generateSubtitles] (lines 254-315) *)

Definition generateSubtitles (app : App) : result App :=
  if negb (ai app) then Ok (updateStatus MsgAiNotInitialized app)
  else
    let app := set_isGenerationCancelled false app in
    let app := updateStatus MsgStarting app in
    let generationStartTime := now env 0 in
    let '(app, r) := transcribeAudio generationStartTime app in
    caught <- match r with
              | Ok vttContent => Ok (app, Some vttContent)
              | Throw _ => Ok (updateStatus MsgError app, None)
              | OutOfFuel => OutOfFuel
              end ;;
    let '(app, vttContent) := caught in
    if isGenerationCancelled app then Ok (updateStatus MsgCancelled app)
    else
      match vttContent with
      | Some vttContent =>
          if (length header <? length vttContent)%nat then Ok (publish vttContent app)
          else Ok (updateStatus MsgNoSubtitles app)
      | None => Ok (updateStatus MsgErrorOrCancelled app)
      end.

End Run.

(* ================================================================= *)
(** ** [downloadVttFile] (lines 320-339) *)

(** [s.lastIndexOf(c)]: the last position of [c], or -1. *)
Fixpoint lastIndexOf_from (s : jsstring) (c : Z) (i : Z) (found : Z) : Z :=
  match s with
  | [] => found
  | x :: rest => lastIndexOf_from rest c (i + 1) (if x =? c then i else found)
  end.

Definition lastIndexOf (s : jsstring) (c : Z) : Z := lastIndexOf_from s c 0 (-1).

(** [a || b] on numbers: 0 is the one falsy value an index can take. *)
Definition or_else (a b : Z) : Z := if a =? 0 then b else a.

Record Download : Type := { download : jsstring; content : jsstring }.

Definition downloadVttFile (app : App) : App * option Download :=
  match generatedVttContent app with
  | None | Some [] => (updateStatus MsgNothingToDownload app, None)
  | Some vtt =>
      let originalFileName :=
        match currentFile app with
        | Some file => name file
        | None => lit "video"
        end in
      let baseName :=
        substring0 originalFileName
          (or_else (lastIndexOf originalFileName (code "."))
                   (Z.of_nat (length originalFileName))) in
      (app, Some {| download := baseName ++ lit ".vtt"; content := vtt |})
  end.

(* ================================================================= *)
(** * Definitions used in the statements and proofs *)

(** The integers [lo], [lo + 1], ... ([n] of them). *)
Fixpoint zrange (lo : Z) (n : nat) : list Z :=
  match n with
  | O => []
  | S n' => lo :: zrange (lo + 1) n'
  end.

Definition jsstring_eqb (a b : jsstring) : bool :=
  if list_eq_dec Z.eq_dec a b then true else false.

Definition civil_in_range (day : Z) : bool :=
  let '(y, m, d) := Date.civil day in
  (1969 <=? y) && (y <=? 2106) && (1 <=? m) && (m <=? 12) && (1 <=? d) && (d <=? 31).

(** The date part of [toISOString], up to the [T]. *)
Definition date_part (day : Z) : jsstring :=
  let '(y, m, d) := Date.civil day in
  Date.year_string y ++ lit "-" ++ Date.pad 2 m ++ lit "-" ++ Date.pad 2 d ++ lit "T".

(** The time part of [toISOString]. *)
Definition time_part (t : Z) : jsstring :=
  Date.pad 2 (Date.HourFromTime t) ++ lit ":" ++ Date.pad 2 (Date.MinFromTime t)
  ++ lit ":" ++ Date.pad 2 (Date.SecFromTime t) ++ lit "."
  ++ Date.pad 3 (Date.msFromTime t).

(** The sample after clamping (line 163). *)
Definition clamp (q : Q) : Q := Qmax (-1) (Qmin 1 q).

(** An application in which generation has completed for [file]. *)
Definition completed (file : File) (vtt : jsstring) : App :=
  {| ai := true; isGenerationCancelled := false; generatedVttContent := Some vtt;
     currentFile := Some file; statusText := MsgCompleted;
     subtitleTrack := Some vtt; requests := [] |}.

(** The writer that has filled [written] and has [m] zero bytes left. *)
Definition at_end (written : list Z) (m : nat) : Writer :=
  {| view := written ++ repeat 0 m; pos := Z.of_nat (length written) |}.

(** The 44 bytes of the RIFF header (lines 133-145). *)
Definition wav_header (buffer : AudioBuffer) : list Z :=
  let numOfChan := numberOfChannels buffer in
  let length := frames buffer * numOfChan * 2 + 44 in
  le_bytes 4 (ToUintN 32 (num 0x46464952))
  ++ le_bytes 4 (ToUintN 32 (num (length - 8)))
  ++ le_bytes 4 (ToUintN 32 (num 0x45564157))
  ++ le_bytes 4 (ToUintN 32 (num 0x20746d66))
  ++ le_bytes 4 (ToUintN 32 (num 16))
  ++ le_bytes 2 (ToUintN 16 (num 1))
  ++ le_bytes 2 (ToUintN 16 (num numOfChan))
  ++ le_bytes 4 (ToUintN 32 (Fin (sampleRate buffer)))
  ++ le_bytes 4 (ToUintN 32 (Fin (sampleRate buffer * 2 * inject_Z numOfChan)))
  ++ le_bytes 2 (ToUintN 16 (num (numOfChan * 2)))
  ++ le_bytes 2 (ToUintN 16 (num 16))
  ++ le_bytes 4 (ToUintN 32 (num 0x61746164))
  ++ le_bytes 4 (ToUintN 32 (num (length - 44))).

(** The bytes of one frame: one 16-bit sample per channel. *)
Definition frame_bytes (channels : list (list number)) (offset : Z) : list Z :=
  flat_map (fun channel =>
              le_bytes 2 (ToUintN 16 (num (quantize (sample_at channel offset)))))
           channels.

(** The sample data: the frames [offset], [offset + 1], ... in order. *)
Definition pcm_from (channels : list (list number)) (offset : Z) (count : nat) : list Z :=
  flat_map (frame_bytes channels) (zrange offset count).

(** The sample data of a buffer. *)
Definition pcm_data (buffer : AudioBuffer) : list Z :=
  pcm_from (channelData buffer) 0 (Z.to_nat (frames buffer)).

(** A buffer of silence: every sample of every channel is zero. *)
Definition silent (buffer : AudioBuffer) : Prop :=
  Forall (Forall (fun x => x = num 0)) (channelData buffer).

(** Start of chunk [k] (counted from 0) as the loop counter reaches it. *)
Definition chunk_start (k : Z) : Q := inject_Z (30 * k).

(** The time range of chunk [k] of a recording of [D] seconds. *)
Definition range_of (D : Q) (k : Z) : Q * Q :=
  (chunk_start k, Qmin (chunk_start k + CHUNK_SECONDS) D).

(** The number of chunks. *)
Definition chunk_count (D : Q) : Z := Qceiling (D / CHUNK_SECONDS).

(** What holds of every [AudioBuffer]: a sample rate of at least 1 Hz, at
    least one channel, a length that fits [unsigned long], and a duration
    of [length / sampleRate] seconds. *)
Definition valid_buffer (b : AudioBuffer) : Prop :=
  (1 <= sampleRate b)%Q /\ 1 <= numberOfChannels b /\ 0 <= frames b < 2 ^ 32
  /\ (duration b * sampleRate b == inject_Z (frames b))%Q.

(** What [formatTimeVTT] returns for a time of at most 2^32 seconds: the
    time of day [trunc s] seconds after the epoch, moved by the part of the
    zone offset below a minute (none in a zone of whole minutes). *)
Definition stamp (LocalTZA : Z) (s : Q) : jsstring :=
  time_part (Qtrunc s * 1000 - LocalTZA mod 60000 + LocalTZA mod 1000).

(** The parts of the state that the loop never writes. *)
Definition store (app : App) : bool * option jsstring * option File * option jsstring :=
  (ai app, generatedVttContent app, currentFile app, subtitleTrack app).

(** The calls made so far: chunk number and time range. *)
Definition sent (app : App) : list (Z * (Q * Q)) :=
  map (fun r => (chunk r, (startTime r, endTime r))) (requests app).

(** The text of the cue of chunk [j], after [trim] and [replace]. *)
Definition subtitle (env : Env) (j : Z) : jsstring :=
  match generateContent env j with
  | Resolve (Some text) => replace_newlines (trim text)
  | _ => []
  end.

Definition resolves (env : Env) (j : Z) : Prop :=
  exists text, generateContent env j = Resolve (Some text).

Definition fails (env : Env) (j : Z) : Prop :=
  generateContent env j = Reject \/ generateContent env j = Resolve None.

(** The block that chunk [k] (counted from 0) adds to the document. *)
Definition block (LocalTZA : Z) (env : Env) (D : Q) (k : Z) : jsstring :=
  match subtitle env (k + 1) with
  | [] => []
  | text =>
      stamp LocalTZA (fst (range_of D k)) ++ lit " --> "
      ++ stamp LocalTZA (snd (range_of D k)) ++ [LF] ++ text ++ [LF; LF]
  end.

(** What an iteration that reaches the remote call does to the state. *)
Definition called (env : Env) (mainAudioBuffer : AudioBuffer) (k : Z)
    (app app' : App) : Prop :=
  store app' = store app
  /\ sent app' = sent app ++ [(k + 1, range_of (duration mainAudioBuffer) k)]
  /\ isGenerationCancelled app'
     = isGenerationCancelled app || cancelDuringCall env (k + 1).

(** The calls for the chunks [k], ..., [k + m - 1] (counted from 0). *)
Definition calls (D : Q) (k : Z) (m : nat) : list (Z * (Q * Q)) :=
  map (fun j => (j + 1, range_of D j)) (zrange k m).

(** The document after the first [m] chunks. *)
Definition document (LocalTZA : Z) (env : Env) (D : Q) (m : nat) : jsstring :=
  header ++ flat_map (block LocalTZA env D) (zrange 0 m).

(** The run gets through the calls for the chunks 1, ..., [m]: they
    resolve, and the cancel button is not clicked before the last of them
    is in flight. *)
Definition arrives (env : Env) (m : nat) : Prop :=
  (forall j, 1 <= j <= Z.of_nat m -> resolves env j)
  /\ (forall j, 1 <= j < Z.of_nat m -> cancelDuringCall env j = false)
  /\ (m <> O -> cancelWhileDecoding env = false).

(** Whether the button is clicked while the run waits for the call of chunk
    [m], or for the decoder when [m] is 0. *)
Definition clicked (env : Env) (m : nat) : bool :=
  match m with
  | O => cancelWhileDecoding env
  | S _ => cancelDuringCall env (Z.of_nat m)
  end.

(** The state in which [generateSubtitles] calls [transcribeAudio]. *)
Definition started (app : App) : App :=
  updateStatus MsgStarting (set_isGenerationCancelled false app).

Definition is_digit (c : Z) : bool := (48 <=? c) && (c <=? 57).

(** [HH:MM:SS.mmm]. *)
Definition is_timestamp (s : jsstring) : bool :=
  match s with
  | [h1; h2; c1; m1; m2; c2; s1; s2; dot; f1; f2; f3] =>
      is_digit h1 && is_digit h2 && (c1 =? code ":")
      && is_digit m1 && is_digit m2 && (c2 =? code ":")
      && is_digit s1 && is_digit s2 && (dot =? code ".")
      && is_digit f1 && is_digit f2 && is_digit f3
  | _ => false
  end.

(** 120 seconds of mono silence at 48 kHz: four chunks. *)
Definition two_minutes : AudioBuffer :=
  {| sampleRate := 48000; frames := 5760000;
     channelData := [repeat (num 0) (Z.to_nat 5760000)]; duration := 120 |}.

(** The page after [movie.mp4] has been loaded. *)
Definition loaded : App :=
  {| ai := true; isGenerationCancelled := false; generatedVttContent := None;
     currentFile := Some {| name := lit "movie.mp4" |}; statusText := MsgVideoLoaded;
     subtitleTrack := None; requests := [] |}.

(** Every call resolves; the cancel button is clicked while the call for
    chunk 2 is in flight. *)
Definition click_during_chunk_2 : Env :=
  {| decodeAudioData := Ok two_minutes; cancelWhileDecoding := false;
     generateContent := fun _ => Resolve (Some (lit "hello"));
     cancelDuringCall := fun j => j =? 2;
     now := fun j => inject_Z (1000 * j) |}.

(** The call for chunk 2 is rejected, with and without a click on the cancel
    button while it is in flight. *)
Definition reject_chunk_2 (click : bool) : Env :=
  {| decodeAudioData := Ok two_minutes; cancelWhileDecoding := false;
     generateContent := fun j => if j =? 2 then Reject else Resolve (Some (lit "hello"));
     cancelDuringCall := fun j => click && (j =? 2);
     now := fun j => inject_Z (1000 * j) |}.

(* ================================================================= *)
(** * Lemmas and theorems *)

(** ** Comparisons and [formatRemainingTime] *)

Lemma Qltb_lt (a b : Q) : Qltb a b = true <-> (a < b)%Q.
Proof.
  unfold Qltb. rewrite Qlt_alt. destruct (a ?= b)%Q; split; congruence.
Qed.

Lemma Qltb_ge (a b : Q) : Qltb a b = false <-> (b <= a)%Q.
Proof.
  unfold Qltb. rewrite Qle_alt.
  rewrite <- (Qcompare_antisym a b).
  destruct (a ?= b)%Q; simpl; split; congruence.
Qed.

(** C7: [formatRemainingTime] returns [--:--] for every input that is NaN,
    negative or infinite (so for NaN, -5 and Infinity), and [02:05] for 125. *)
Theorem formatRemainingTime_placeholder_and_125 :
  (forall seconds : number,
      seconds = NaN \/ seconds = PosInf \/ seconds = NegInf
      \/ (exists q, seconds = Fin q /\ (q < 0)%Q) ->
      formatRemainingTime seconds = lit "--:--")
  /\ formatRemainingTime NaN = lit "--:--"
  /\ formatRemainingTime (num (-5)) = lit "--:--"
  /\ formatRemainingTime PosInf = lit "--:--"
  /\ formatRemainingTime (num 125) = lit "02:05".
Proof.
  split; [| repeat split; reflexivity].
  intros seconds [-> | [-> | [-> | [q [-> Hq]]]]]; try reflexivity.
  unfold formatRemainingTime. simpl.
  apply Qltb_lt in Hq. rewrite Hq. reflexivity.
Qed.

(** [formatRemainingTime (-3.5)] is the placeholder. *)
Lemma formatRemainingTime_placeholder_and_125_witness :
  formatRemainingTime (Fin (-7 # 2)) = lit "--:--".
Proof.
  apply (proj1 formatRemainingTime_placeholder_and_125).
  right; right; right. exists (-7 # 2)%Q. split; [reflexivity | reflexivity].
Defined.

(** ** Timestamps: [Date] and [formatTimeVTT] *)

Lemma in_zrange (n : nat) : forall lo v, lo <= v < lo + Z.of_nat n -> In v (zrange lo n).
Proof.
  induction n as [| n IH]; intros lo v Hv; [lia |].
  simpl. destruct (Z.eq_dec lo v) as [-> | Hne]; [now left | right].
  apply IH. lia.
Qed.

(** A property checked on every integer of a range holds on the range. *)
Lemma forallb_range (P : Z -> bool) (lo len : Z) :
  forallb P (zrange lo (Z.to_nat len)) = true ->
  forall v, lo <= v < lo + len -> P v = true.
Proof.
  intros H v Hv. rewrite forallb_forall in H. apply H.
  apply in_zrange. lia.
Qed.

Lemma jsstring_eqb_eq (a b : jsstring) : jsstring_eqb a b = true -> a = b.
Proof. unfold jsstring_eqb. destruct (list_eq_dec Z.eq_dec a b); congruence. Qed.

Lemma pad2_digits (v : Z) :
  0 <= v < 100 -> Date.pad 2 v = [48 + v / 10; 48 + v mod 10].
Proof.
  intros Hv. apply jsstring_eqb_eq.
  apply (forallb_range
           (fun v => jsstring_eqb (Date.pad 2 v) [48 + v / 10; 48 + v mod 10]) 0 100);
    [vm_compute; reflexivity | lia].
Qed.

Lemma pad3_digits (v : Z) :
  0 <= v < 1000 ->
  Date.pad 3 v = [48 + v / 100; 48 + v / 10 mod 10; 48 + v mod 10].
Proof.
  intros Hv. apply jsstring_eqb_eq.
  apply (forallb_range
           (fun v => jsstring_eqb (Date.pad 3 v)
                       [48 + v / 100; 48 + v / 10 mod 10; 48 + v mod 10]) 0 1000);
    [vm_compute; reflexivity | lia].
Qed.

Lemma civil_range (day : Z) :
  -1 <= day < 49712 -> civil_in_range day = true.
Proof.
  intros Hd.
  apply (forallb_range civil_in_range (-1) 49713); [vm_compute; reflexivity | lia].
Qed.

Lemma year_string_length (y : Z) :
  1969 <= y <= 2106 -> length (Date.year_string y) = 4%nat.
Proof.
  intros Hy. apply Nat.eqb_eq.
  apply (forallb_range (fun y => (length (Date.year_string y) =? 4)%nat) 1969 138);
    [vm_compute; reflexivity | lia].
Qed.

(** *** Truncation *)

Lemma Qtrunc_inject_Z (z : Z) : Qtrunc (inject_Z z) = z.
Proof. unfold Qtrunc, inject_Z. simpl. apply Z.quot_1_r. Qed.

Lemma Qtrunc_nonneg (q : Q) : (0 <= q)%Q -> Qtrunc q = Qfloor q.
Proof.
  destruct q as [n d]. unfold Qle, Qtrunc, Qfloor. simpl. intros H.
  apply Z.quot_div_nonneg; lia.
Qed.

Lemma Qfloor_range (q : Q) (lo hi : Z) :
  (inject_Z lo <= q)%Q -> (q < inject_Z hi)%Q -> lo <= Qfloor q < hi.
Proof.
  intros Hlo Hhi. split.
  - rewrite <- (Qfloor_Z lo). now apply Qfloor_resp_le.
  - pose proof (Qfloor_le q) as H.
    assert (inject_Z (Qfloor q) < inject_Z hi)%Q as H' by lra.
    now rewrite <- Zlt_Qlt in H'.
Qed.

(** *** [setSeconds] on the epoch *)

Lemma floor_to_minute (t : Z) :
  Date.MakeDate (Date.Day t)
    (Date.HourFromTime t * Date.msPerHour + Date.MinFromTime t * Date.msPerMinute)
  = t - t mod 60000.
Proof.
  unfold Date.MakeDate, Date.Day, Date.HourFromTime, Date.MinFromTime,
    Date.msPerDay, Date.msPerHour, Date.msPerMinute.
  Z.div_mod_to_equations. lia.
Qed.

Lemma setSeconds_epoch (LocalTZA : Z) (s : Q) :
  Date.setSeconds LocalTZA (Some 0) (Fin s)
  = Date.TimeClip (Qtrunc s * 1000 - LocalTZA mod 60000 + LocalTZA mod 1000).
Proof.
  unfold Date.setSeconds, Date.MakeTime, Date.LocalTime, Date.UTC. simpl.
  f_equal.
  pose proof (floor_to_minute LocalTZA) as H.
  unfold Date.MakeDate in *. unfold Date.msFromTime, Date.msPerSecond. lia.
Qed.

Lemma TimeClip_small (t : Z) :
  Z.abs t <= 8640000000000000 -> Date.TimeClip t = Some t.
Proof.
  intros H. unfold Date.TimeClip.
  destruct (Z.gtb_spec (Z.abs t) 8640000000000000); [lia | reflexivity].
Qed.

Lemma toISOString_parts (t : Z) :
  Date.toISOString (Some t) = Ok (date_part (Date.Day t) ++ time_part t ++ lit "Z").
Proof.
  unfold Date.toISOString, date_part, time_part.
  destruct (Date.civil (Date.Day t)) as [[y m] d].
  f_equal. repeat rewrite <- app_assoc. reflexivity.
Qed.

Lemma date_part_length (day : Z) :
  -1 <= day < 49712 -> length (date_part day) = 11%nat.
Proof.
  intros Hd. pose proof (civil_range day Hd) as H.
  unfold civil_in_range, date_part in *.
  destruct (Date.civil day) as [[y m] d].
  repeat (apply andb_prop in H; destruct H as [H ?]).
  repeat rewrite length_app.
  rewrite year_string_length by lia.
  rewrite !pad2_digits by lia. reflexivity.
Qed.

Lemma time_part_length (t : Z) : length (time_part t) = 12%nat.
Proof.
  unfold time_part, Date.HourFromTime, Date.MinFromTime, Date.SecFromTime,
    Date.msFromTime, Date.msPerSecond.
  pose proof (Z.mod_pos_bound (t / Date.msPerHour) 24 ltac:(lia)).
  pose proof (Z.mod_pos_bound (t / Date.msPerMinute) 60 ltac:(lia)).
  pose proof (Z.mod_pos_bound (t / 1000) 60 ltac:(lia)).
  pose proof (Z.mod_pos_bound t 1000 ltac:(lia)).
  rewrite !pad2_digits by lia. rewrite pad3_digits by lia.
  reflexivity.
Qed.

Lemma substr_middle (a b c : jsstring) (n m : nat) :
  length a = n -> length b = m -> substr (a ++ b ++ c) n m = b.
Proof.
  intros <- <-. unfold substr. rewrite skipn_app, skipn_all, Nat.sub_diag. simpl.
  rewrite firstn_app, firstn_all, Nat.sub_diag. simpl. apply app_nil_r.
Qed.

(** [formatTimeVTT] on an in-range time: the time part of the date reached. *)
Lemma formatTimeVTT_time_part (LocalTZA : Z) (s : Q) :
  (0 <= s)%Q -> (s <= 4294967296)%Q ->
  formatTimeVTT LocalTZA (Fin s)
  = Ok (time_part (Qtrunc s * 1000 - LocalTZA mod 60000 + LocalTZA mod 1000)).
Proof.
  intros H0 H1. unfold formatTimeVTT.
  rewrite setSeconds_epoch.
  rewrite (Qtrunc_nonneg s H0).
  assert (0 <= Qfloor s < 4294967297) as Hf
      by (apply Qfloor_range; unfold inject_Z; lra).
  pose proof (Z.mod_pos_bound LocalTZA 60000 ltac:(lia)).
  pose proof (Z.mod_pos_bound LocalTZA 1000 ltac:(lia)).
  set (t := Qfloor s * 1000 - LocalTZA mod 60000 + LocalTZA mod 1000).
  rewrite TimeClip_small by (unfold t; lia).
  rewrite toISOString_parts. cbn [bind].
  f_equal.
  assert (length (date_part (Date.Day t)) = 11%nat) as Hl.
  { apply date_part_length. unfold Date.Day, Date.msPerDay, t.
    Z.div_mod_to_equations. lia. }
  apply substr_middle; [exact Hl | apply time_part_length].
Qed.

(** C10: for every number of seconds [s] with [0 <= s < 86400], in a time
    zone whose offset is a whole number of minutes, [formatTimeVTT s] is the
    rendering of [floor s] as [HH:MM:SS] followed by [.000]: the fraction of
    [s] is dropped, and [formatTimeVTT s = formatTimeVTT (floor s)]. *)
Theorem formatTimeVTT_drops_fraction (LocalTZA : Z) (s : Q) :
  LocalTZA mod 60000 = 0 -> (0 <= s)%Q -> (s < 86400)%Q ->
  let n := Qfloor s in
  formatTimeVTT LocalTZA (Fin s)
  = Ok (Date.pad 2 (n / 3600) ++ lit ":" ++ Date.pad 2 (n / 60 mod 60) ++ lit ":"
        ++ Date.pad 2 (n mod 60) ++ lit ".000")
  /\ formatTimeVTT LocalTZA (Fin s) = formatTimeVTT LocalTZA (num n).
Proof.
  intros Htz H0 H1 n.
  assert (0 <= n < 86400) as Hn by (apply Qfloor_range; unfold inject_Z; lra).
  assert (LocalTZA mod 1000 = 0) as Htz' by (Z.div_mod_to_equations; lia).
  assert (forall q, (0 <= q)%Q -> (q < 86400)%Q -> Qfloor q = n ->
            formatTimeVTT LocalTZA (Fin q)
            = Ok (Date.pad 2 (n / 3600) ++ lit ":" ++ Date.pad 2 (n / 60 mod 60)
                  ++ lit ":" ++ Date.pad 2 (n mod 60) ++ lit ".000")) as Hfmt.
  { intros q Hq0 Hq1 Hqn.
    rewrite formatTimeVTT_time_part by lra.
    rewrite (Qtrunc_nonneg q Hq0), Hqn, Htz, Htz'.
    unfold time_part, Date.HourFromTime, Date.MinFromTime, Date.SecFromTime,
      Date.msFromTime, Date.msPerHour, Date.msPerMinute, Date.msPerSecond.
    replace ((n * 1000 - 0 + 0) / 3600000 mod 24) with (n / 3600)
      by (Z.div_mod_to_equations; lia).
    replace ((n * 1000 - 0 + 0) / 60000 mod 60) with (n / 60 mod 60)
      by (Z.div_mod_to_equations; lia).
    replace ((n * 1000 - 0 + 0) / 1000 mod 60) with (n mod 60)
      by (Z.div_mod_to_equations; lia).
    replace ((n * 1000 - 0 + 0) mod 1000) with 0
      by (Z.div_mod_to_equations; lia).
    reflexivity. }
  split.
  - apply Hfmt; [assumption | assumption | reflexivity].
  - rewrite (Hfmt s H0 H1 eq_refl). symmetry. unfold num.
    apply Hfmt.
    + unfold inject_Z, Qle. simpl. lia.
    + unfold inject_Z, Qlt. simpl. lia.
    + apply Qfloor_Z.
Qed.

Lemma formatTimeVTT_drops_fraction_witness :
  formatTimeVTT 32400000 (Fin 65.9) = Ok (lit "00:01:05.000").
Proof.
  refine (proj1 (formatTimeVTT_drops_fraction 32400000 65.9 eq_refl _ _)).
  - unfold Qle; simpl; lia.
  - unfold Qlt; simpl; lia.
Defined.

(** ** The quantizer (lines 163-164) *)

Lemma Qtrunc_opp (q : Q) : Qtrunc (- q) = - Qtrunc q.
Proof. destruct q as [n d]. unfold Qtrunc, Qopp. simpl. apply Z.quot_opp_l. lia. Qed.

Lemma Qtrunc_range (q : Q) (b : Z) :
  (- inject_Z b <= q)%Q -> (q <= inject_Z b)%Q -> - b <= Qtrunc q <= b.
Proof.
  intros Hlo Hhi.
  destruct (Qlt_le_dec q 0) as [Hneg | Hpos].
  - assert (0 <= - q)%Q as H by lra.
    pose proof (Qtrunc_opp q) as Ho. rewrite (Qtrunc_nonneg _ H) in Ho.
    assert (0 <= Qfloor (- q) < b + 1) as Hr.
    { apply Qfloor_range; [unfold inject_Z at 1; lra |].
      rewrite inject_Z_plus. unfold inject_Z at 2. lra. }
    lia.
  - rewrite (Qtrunc_nonneg _ Hpos).
    assert (0 <= Qfloor q < b + 1) as Hr.
    { apply Qfloor_range; [unfold inject_Z at 1; lra |].
      rewrite inject_Z_plus. unfold inject_Z at 2. lra. }
    lia.
Qed.

Lemma ToInt32_small (q : Q) :
  - 2 ^ 31 <= Qtrunc q < 2 ^ 31 -> ToInt32 (Fin q) = Qtrunc q.
Proof.
  intros H. unfold ToInt32, ToUintN.
  change (2 ^ 31) with 2147483648 in *. change (2 ^ 32) with 4294967296.
  destruct (Z.ltb_spec (Qtrunc q mod 4294967296) 2147483648);
    Z.div_mod_to_equations; lia.
Qed.

Lemma clamp_range (q : Q) : (-1 <= clamp q <= 1)%Q.
Proof.
  unfold clamp. split; [apply Q.le_max_l |].
  apply Q.max_lub; [lra | apply Q.le_min_l].
Qed.

(** What line 164 computes from a finite sample: the scale is 32768 below
    -1/2 and 32767 from -1/2 on. *)
Lemma quantize_finite (q : Q) :
  quantize (Fin q)
  = if Qltb (clamp q) (- (1 # 2)) then Qtrunc (clamp q * 32768)
    else Qtrunc (clamp q * 32767).
Proof.
  unfold quantize. cbn [num Math_min Math_max num_add num_lt num_mul].
  change (inject_Z (-1)) with (-1)%Q. change (inject_Z 1) with 1%Q.
  fold (clamp q). pose proof (clamp_range q) as [Hlo Hhi].
  assert (Qltb (0.5 + clamp q) (inject_Z 0) = Qltb (clamp q) (- (1 # 2))) as ->.
  { destruct (Qltb (clamp q) (- (1 # 2))) eqn:E.
    - apply Qltb_lt in E. apply Qltb_lt. unfold inject_Z. lra.
    - apply Qltb_ge in E. apply Qltb_ge. unfold inject_Z. lra. }
  destruct (Qltb (clamp q) (- (1 # 2))); apply ToInt32_small.
  - pose proof (Qtrunc_range (clamp q * inject_Z 32768) 32768) as H.
    change (2 ^ 31) with 2147483648.
    unfold inject_Z in H. 
    assert (- 32768 <= Qtrunc (clamp q * (32768 # 1)) <= 32768) by (apply H; lra).
    lia.
  - pose proof (Qtrunc_range (clamp q * inject_Z 32767) 32767) as H.
    change (2 ^ 31) with 2147483648.
    unfold inject_Z in H. 
    assert (- 32767 <= Qtrunc (clamp q * (32767 # 1)) <= 32767) by (apply H; lra).
    lia.
Qed.

(** C2: the sample -0.25 is negative, and the code scales it by 32767
    (giving -8191) where a scale of 32768 gives -8192; the boundary cases of
    the claim hold: 1.0 encodes to 32767, -1.0 to -32768, and 1.5 as 1.0. *)
Theorem quantize_scale_switches_at_minus_half :
  quantize (Fin (-0.25)) = -8191
  /\ ToInt32 (num_mul (Fin (-0.25)) (num 32768)) = -8192
  /\ quantize (num 1) = 32767
  /\ quantize (num (-1)) = -32768
  /\ quantize (Fin 1.5) = quantize (num 1).
Proof. repeat split; vm_compute; reflexivity. Qed.

(** ** [lastIndexOf] and the download name *)

Lemma lastIndexOf_from_absent (c : Z) (s : jsstring) :
  ~ In c s -> forall i found, lastIndexOf_from s c i found = found.
Proof.
  induction s as [| x s IH]; intros Hn i found; [reflexivity |].
  simpl. destruct (Z.eqb_spec x c) as [-> | _].
  - exfalso. apply Hn. now left.
  - apply IH. intros H. apply Hn. now right.
Qed.

Lemma lastIndexOf_from_last (c : Z) (ext : jsstring) :
  ~ In c ext ->
  forall base i found,
    lastIndexOf_from (base ++ c :: ext) c i found = i + Z.of_nat (length base).
Proof.
  intros Hn. induction base as [| x base IH]; intros i found.
  - simpl. rewrite Z.eqb_refl. rewrite lastIndexOf_from_absent by assumption. lia.
  - simpl app. cbn [lastIndexOf_from]. rewrite IH. simpl length. lia.
Qed.

(** A name [base.ext] with a non-empty [base] is downloaded as [base.vtt]. *)
Lemma download_name_with_extension (base ext vtt : jsstring) :
  base <> [] -> vtt <> [] -> ~ In (code ".") ext ->
  option_map download
    (snd (downloadVttFile (completed {| name := base ++ code "." :: ext |} vtt)))
  = Some (base ++ lit ".vtt").
Proof.
  intros Hb Hv Hn. unfold downloadVttFile.
  remember (code ".") as dot eqn:Hdot.
  cbn [generatedVttContent completed].
  destruct vtt as [| v vtt]; [congruence |].
  cbn [currentFile completed name snd option_map download].
  unfold lastIndexOf. rewrite lastIndexOf_from_last by assumption.
  unfold or_else. destruct base as [| b base]; [congruence |].
  destruct (Z.eqb_spec (0 + Z.of_nat (length (b :: base))) 0) as [E | _];
    [simpl in E; lia |].
  unfold substring0. rewrite Z.add_0_l, Nat2Z.id.
  rewrite firstn_app, firstn_all, Nat.sub_diag. simpl firstn.
  now rewrite app_nil_r.
Qed.

(** A name without a dot is downloaded as [.vtt]: [lastIndexOf] answers -1,
    which is truthy, and [substring(0, -1)] is empty. *)
Lemma download_name_without_dot (file_name vtt : jsstring) :
  vtt <> [] -> ~ In (code ".") file_name ->
  option_map download
    (snd (downloadVttFile (completed {| name := file_name |} vtt)))
  = Some (lit ".vtt").
Proof.
  intros Hv Hn. unfold downloadVttFile.
  remember (code ".") as dot eqn:Hdot.
  cbn [generatedVttContent completed].
  destruct vtt as [| v vtt]; [congruence |].
  cbn [currentFile completed name snd option_map download].
  unfold lastIndexOf. rewrite lastIndexOf_from_absent by assumption.
  reflexivity.
Qed.

(** C9: for the file name [movie], which has no extension, the download is
    named [.vtt] and not [movie.vtt]; for [movie.mp4] it is [movie.vtt]. *)
Theorem download_name_of_file_without_extension :
  option_map download
    (snd (downloadVttFile (completed {| name := lit "movie" |} (header ++ lit "x"))))
  = Some (lit ".vtt")
  /\ option_map download
       (snd (downloadVttFile
               (completed {| name := lit "movie.mp4" |} (header ++ lit "x"))))
     = Some (lit "movie.vtt").
Proof. split; vm_compute; reflexivity. Qed.

(** ** The encoder writes front to back *)

Lemma skipn_repeat_zero (k m : nat) : skipn k (repeat 0 m) = repeat 0 (m - k).
Proof.
  revert k. induction m as [| m IH]; intros [| k]; simpl; try reflexivity.
  apply IH.
Qed.

Lemma DataView_set_at_end (written bs : list Z) (m : nat) :
  (length bs <= m)%nat ->
  DataView_set (view (at_end written m)) (pos (at_end written m)) bs
  = Ok (view (at_end (written ++ bs) (m - length bs))).
Proof.
  intros Hm. unfold DataView_set, at_end. cbn [view pos].
  rewrite length_app, repeat_length.
  destruct (Z.leb_spec 0 (Z.of_nat (length written))); [| lia].
  destruct (Z.leb_spec (Z.of_nat (length written) + Z.of_nat (length bs))
              (Z.of_nat (length written + m))); [| lia].
  cbn [andb]. f_equal. rewrite Nat2Z.id.
  rewrite firstn_app, firstn_all, Nat.sub_diag. cbn [firstn].
  rewrite app_nil_r, <- app_assoc. do 2 f_equal.
  rewrite skipn_app, skipn_all2 by lia. cbn [app].
  replace (length written + length bs - length written)%nat with (length bs) by lia.
  apply skipn_repeat_zero.
Qed.

Lemma le_bytes_length (n : nat) : forall v, length (le_bytes n v) = n.
Proof. induction n as [| n IH]; intros v; simpl; [reflexivity | now rewrite IH]. Qed.

Lemma setUint32_at_end (data : number) (written : list Z) (m : nat) :
  (4 <= m)%nat ->
  setUint32 data (at_end written m)
  = Ok (at_end (written ++ le_bytes 4 (ToUintN 32 data)) (m - 4)).
Proof.
  intros Hm. unfold setUint32.
  rewrite DataView_set_at_end by (rewrite le_bytes_length; exact Hm).
  rewrite le_bytes_length. cbn [bind]. f_equal.
  unfold at_end. cbn [view pos]. f_equal.
  rewrite length_app, le_bytes_length. lia.
Qed.

Lemma setUint16_at_end (data : number) (written : list Z) (m : nat) :
  (2 <= m)%nat ->
  setUint16 data (at_end written m)
  = Ok (at_end (written ++ le_bytes 2 (ToUintN 16 data)) (m - 2)).
Proof.
  intros Hm. unfold setUint16.
  rewrite DataView_set_at_end by (rewrite le_bytes_length; exact Hm).
  rewrite le_bytes_length. cbn [bind]. f_equal.
  unfold at_end. cbn [view pos]. f_equal.
  rewrite length_app, le_bytes_length. lia.
Qed.

Lemma setInt16_at_end (data : number) (written : list Z) (m : nat) :
  (2 <= m)%nat ->
  setInt16 data (at_end written m)
  = Ok (at_end (written ++ le_bytes 2 (ToUintN 16 data)) (m - 2)).
Proof. exact (setUint16_at_end data written m). Qed.

Lemma wav_header_length (buffer : AudioBuffer) : length (wav_header buffer) = 44%nat.
Proof. reflexivity. Qed.

Lemma write_header_at_end (buffer : AudioBuffer) (m : nat) :
  (44 <= m)%nat ->
  write_header buffer (frames buffer * numberOfChannels buffer * 2 + 44) (at_end [] m)
  = Ok (at_end (wav_header buffer) (m - 44)).
Proof.
  intros Hm. unfold write_header.
  repeat (first [rewrite setUint32_at_end by lia | rewrite setUint16_at_end by lia];
          cbn [bind]).
  match goal with
  | |- context [pos (at_end ?w ?k)] =>
      replace (pos (at_end w k)) with 40
        by (unfold at_end; cbn [pos]; repeat rewrite length_app;
            repeat rewrite le_bytes_length; reflexivity)
  end.
  replace (m - 4 - 4 - 4 - 4 - 4 - 2 - 2 - 4 - 4 - 2 - 2 - 4 - 4)%nat with (m - 44)%nat
    by lia.
  replace (frames buffer * numberOfChannels buffer * 2 + 44 - 40 - 4)
    with (frames buffer * numberOfChannels buffer * 2 + 44 - 44) by lia.
  unfold wav_header. cbn [app]. repeat rewrite <- app_assoc. reflexivity.
Qed.

Lemma frame_bytes_length (channels : list (list number)) (offset : Z) :
  length (frame_bytes channels offset) = (2 * length channels)%nat.
Proof.
  unfold frame_bytes. induction channels as [| c cs IH]; [reflexivity |].
  cbn [flat_map]. rewrite length_app, IH, le_bytes_length. simpl. lia.
Qed.

Lemma write_frame_at_end (offset : Z) (channels : list (list number)) :
  forall (written : list Z) (m : nat),
    (2 * length channels <= m)%nat ->
    write_frame channels offset (at_end written m)
    = Ok (at_end (written ++ frame_bytes channels offset) (m - 2 * length channels)).
Proof.
  induction channels as [| c cs IH]; intros written m Hm.
  - cbn [write_frame frame_bytes flat_map length]. rewrite app_nil_r.
    do 2 f_equal. lia.
  - cbn [write_frame]. cbn [length] in Hm.
    rewrite setInt16_at_end by lia. cbn [bind].
    rewrite IH by lia. do 2 f_equal.
    + unfold frame_bytes. cbn [flat_map]. now rewrite <- app_assoc.
    + cbn [length]. lia.
Qed.

Lemma pcm_from_length (channels : list (list number)) (count : nat) :
  forall offset,
    length (pcm_from channels offset count) = (count * (2 * length channels))%nat.
Proof.
  unfold pcm_from. induction count as [| n IH]; intros offset; [reflexivity |].
  cbn [zrange flat_map]. rewrite length_app, IH, frame_bytes_length. lia.
Qed.

Lemma pcm_from_no_channel (count : nat) : forall offset, pcm_from [] offset count = [].
Proof.
  unfold pcm_from. induction count as [| n IH]; intros offset; [reflexivity |].
  cbn [zrange flat_map frame_bytes app]. apply IH.
Qed.

Lemma write_frames_at_end (channels : list (list number)) (length : Z) :
  (1 <= List.length channels)%nat ->
  forall (count fuel : nat) (offset : Z) (written : list Z),
    (count < fuel)%nat ->
    length = Z.of_nat (List.length written + count * (2 * List.length channels)) ->
    write_frames fuel length channels offset
      (at_end written (count * (2 * List.length channels)))
    = Ok (at_end (written ++ pcm_from channels offset count) 0).
Proof.
  intros Hc. induction count as [| n IH]; intros fuel offset written Hf Hl;
    (destruct fuel as [| fuel]; [lia |]); cbn [write_frames].
  - unfold at_end at 1. cbn [pos].
    destruct (Z.ltb_spec (Z.of_nat (List.length written)) length); [lia |].
    unfold pcm_from. cbn [zrange flat_map]. now rewrite app_nil_r.
  - unfold at_end at 1. cbn [pos].
    destruct (Z.ltb_spec (Z.of_nat (List.length written)) length); [| nia].
    fold (at_end written (S n * (2 * List.length channels))).
    rewrite write_frame_at_end by lia. cbn [bind].
    replace (S n * (2 * List.length channels) - 2 * List.length channels)%nat
      with (n * (2 * List.length channels))%nat by lia.
    rewrite IH.
    + unfold pcm_from. cbn [zrange flat_map]. now rewrite <- app_assoc.
    + lia.
    + rewrite length_app, frame_bytes_length. lia.
Qed.

(** The encoder returns, on every buffer, the header followed by the
    quantized samples, frame by frame. *)
Lemma audioBufferToWav_bytes (buffer : AudioBuffer) :
  0 <= frames buffer ->
  audioBufferToWav buffer = Ok (wav_header buffer ++ pcm_data buffer).
Proof.
  intros Hn. unfold audioBufferToWav.
  set (C := List.length (channelData buffer)).
  assert (numberOfChannels buffer = Z.of_nat C) as HC by reflexivity.
  set (count := Z.to_nat (frames buffer)).
  assert (Z.to_nat (frames buffer * numberOfChannels buffer * 2 + 44)
          = (44 + count * (2 * C))%nat) as Hlen by (rewrite HC; unfold count; nia).
  rewrite Hlen.
  change {| view := repeat 0 (44 + count * (2 * C)); pos := 0 |}
    with (at_end [] (44 + count * (2 * C))).
  rewrite write_header_at_end by lia. cbn [bind].
  replace (44 + count * (2 * C) - 44)%nat with (count * (2 * C))%nat by lia.
  destruct (Nat.eq_dec C 0) as [E0 | Hpos].
  - assert (channelData buffer = []) as Hnil
        by (apply length_zero_iff_nil; exact E0).
    rewrite E0. replace (count * (2 * 0))%nat with 0%nat by lia.
    cbn [write_frames]. unfold at_end at 1. cbn [pos].
    rewrite wav_header_length.
    destruct (Z.ltb_spec (Z.of_nat 44) (frames buffer * numberOfChannels buffer * 2 + 44));
      [rewrite HC, E0 in *; lia |].
    cbn [bind at_end view repeat]. f_equal. rewrite app_nil_r.
    unfold pcm_data. rewrite Hnil, pcm_from_no_channel. now rewrite app_nil_r.
  - rewrite (write_frames_at_end (channelData buffer)); fold C.
    + cbn [bind at_end view repeat]. now rewrite app_nil_r.
    + lia.
    + unfold count. lia.
    + rewrite wav_header_length, HC. unfold count. nia.
Qed.

Lemma binary_string_all (u8 : list Z) :
  forall (fuel : nat) (i : Z) (binary : jsstring),
    0 <= i -> (0 < fuel)%nat -> Z.of_nat (length u8) - i < Z.of_nat fuel ->
    binary_string fuel u8 i binary = Ok (binary ++ skipn (Z.to_nat i) u8).
Proof.
  induction fuel as [| fuel IH]; intros i binary Hi Hpos Hf; [lia |].
  - cbn [binary_string].
    destruct (Z.ltb_spec i (Z.of_nat (length u8))).
    + rewrite IH by (unfold CHUNK_SIZE; lia).
      rewrite <- app_assoc. do 2 f_equal.
      replace (Z.to_nat (i + CHUNK_SIZE)) with (Z.to_nat CHUNK_SIZE + Z.to_nat i)%nat
        by (unfold CHUNK_SIZE; lia).
      rewrite <- skipn_skipn. apply firstn_skipn.
    + rewrite skipn_all2 by lia. now rewrite app_nil_r.
Qed.

(** The payload of a buffer: base64 of the header and the sample data. *)
Lemma audioBufferToWavBase64_value (buffer : AudioBuffer) :
  0 <= frames buffer ->
  audioBufferToWavBase64 buffer = Ok (btoa (wav_header buffer ++ pcm_data buffer)).
Proof.
  intros Hn. unfold audioBufferToWavBase64.
  rewrite audioBufferToWav_bytes by assumption. cbn [bind].
  rewrite binary_string_all by lia. reflexivity.
Qed.

Lemma frame_bytes_silent (channels : list (list number)) (offset : Z) :
  Forall (Forall (fun x => x = num 0)) channels ->
  frame_bytes channels offset = repeat 0 (2 * length channels).
Proof.
  unfold frame_bytes. induction 1 as [| c cs Hc _ IH]; [reflexivity |].
  cbn [flat_map length]. rewrite IH.
  replace (2 * S (length cs))%nat with (2 + 2 * length cs)%nat by lia.
  rewrite repeat_app. f_equal.
  unfold sample_at.
  destruct (nth_in_or_default (Z.to_nat offset) c NaN) as [Hin | ->].
  - rewrite Forall_forall in Hc. rewrite (Hc _ Hin). reflexivity.
  - reflexivity.
Qed.

Lemma pcm_from_silent (channels : list (list number)) (count : nat) :
  Forall (Forall (fun x => x = num 0)) channels ->
  forall offset,
    pcm_from channels offset count = repeat 0 (count * (2 * length channels)).
Proof.
  intros Hs. unfold pcm_from. induction count as [| n IH]; intros offset; [reflexivity |].
  cbn [zrange flat_map]. rewrite IH, frame_bytes_silent by assumption.
  now rewrite <- repeat_app.
Qed.

Lemma le_value_2 (a : Z) :
  0 <= a < 2 ^ 16 -> le_value (le_bytes 2 a) = a.
Proof.
  intros H. change (2 ^ 16) with 65536 in H. cbn [le_bytes le_value].
  Z.div_mod_to_equations. lia.
Qed.

Lemma le_value_4 (a : Z) :
  0 <= a < 2 ^ 32 -> le_value (le_bytes 4 a) = a.
Proof.
  intros H. change (2 ^ 32) with 4294967296 in H. cbn [le_bytes le_value].
  Z.div_mod_to_equations. lia.
Qed.

Lemma ToUintN_num (bits z : Z) : 0 <= z < 2 ^ bits -> ToUintN bits (num z) = z.
Proof.
  intros H. unfold ToUintN, num. rewrite Qtrunc_inject_Z. now apply Z.mod_small.
Qed.

(** The header fields of an encoded buffer, read back from the payload. *)
Lemma wav_header_fields (buffer : AudioBuffer) (rest : list Z) :
  DataView_getUint 2 (wav_header buffer ++ rest) 22
  = ToUintN 16 (num (numberOfChannels buffer))
  /\ DataView_getUint 4 (wav_header buffer ++ rest) 24
     = ToUintN 32 (Fin (sampleRate buffer))
  /\ DataView_getUint 2 (wav_header buffer ++ rest) 34 = 16.
Proof.
  unfold DataView_getUint, wav_header.
  set (c := ToUintN 16 (num (numberOfChannels buffer))).
  set (r := ToUintN 32 (Fin (sampleRate buffer))).
  assert (0 <= c < 2 ^ 16) as Hc by (apply Z.mod_pos_bound; lia).
  assert (0 <= r < 2 ^ 32) as Hr by (apply Z.mod_pos_bound; lia).
  repeat split.
  - change (le_value (le_bytes 2 c) = c). now apply le_value_2.
  - change (le_value (le_bytes 4 r) = r). now apply le_value_4.
Qed.

(** C5: for every buffer of silence with [N] frames, [C] channels (below
    2^16) and an integral sample rate [R] (below 2^32), the encoder returns a
    payload of exactly [44 + N * C * 2] bytes whose header records [C]
    channels at offset 22, the rate [R] at offset 24 and 16 bits per sample
    at offset 34; the sample data after the header is all zero. *)
Theorem silence_payload_size_and_header (buffer : AudioBuffer) (N C R : Z) :
  silent buffer ->
  frames buffer = N -> numberOfChannels buffer = C -> sampleRate buffer = inject_Z R ->
  0 <= N -> C < 2 ^ 16 -> 0 <= R < 2 ^ 32 ->
  exists payload : list Z,
    audioBufferToWav buffer = Ok payload
    /\ Z.of_nat (length payload) = 44 + N * C * 2
    /\ DataView_getUint 2 payload 22 = C
    /\ DataView_getUint 4 payload 24 = R
    /\ DataView_getUint 2 payload 34 = 16
    /\ skipn 44 payload = repeat 0 (Z.to_nat (N * C * 2)).
Proof.
  intros Hs HN HC HR HN0 HC16 HR32.
  exists (wav_header buffer ++ pcm_data buffer).
  assert (0 <= C) as HC0 by (rewrite <- HC; unfold numberOfChannels; lia).
  destruct (wav_header_fields buffer (pcm_data buffer)) as (Hf1 & Hf2 & Hf3).
  split; [apply audioBufferToWav_bytes; lia |].
  split.
  { rewrite length_app, wav_header_length. unfold pcm_data.
    rewrite pcm_from_length. fold (numberOfChannels buffer) in *.
    unfold numberOfChannels in HC. nia. }
  split; [rewrite Hf1, HC; apply ToUintN_num; lia |].
  split; [rewrite Hf2, HR; apply (ToUintN_num 32); lia |].
  split; [exact Hf3 |].
  rewrite skipn_app, skipn_all2 by (rewrite wav_header_length; lia).
  rewrite wav_header_length. cbn [Nat.sub skipn app].
  unfold pcm_data. rewrite pcm_from_silent by exact Hs.
  f_equal. unfold numberOfChannels in HC. nia.
Qed.

Lemma silence_payload_size_and_header_witness :
  exists payload : list Z,
    audioBufferToWav
      {| sampleRate := 48000; frames := 3;
         channelData := [[num 0; num 0; num 0]; [num 0; num 0; num 0]];
         duration := 3 / 48000 |} = Ok payload
    /\ Z.of_nat (length payload) = 44 + 3 * 2 * 2
    /\ DataView_getUint 2 payload 22 = 2
    /\ DataView_getUint 4 payload 24 = 48000
    /\ DataView_getUint 2 payload 34 = 16
    /\ skipn 44 payload = repeat 0 (Z.to_nat (3 * 2 * 2)).
Proof.
  apply (silence_payload_size_and_header _ 3 2 48000).
  - repeat constructor.
  - reflexivity.
  - reflexivity.
  - reflexivity.
  - lia.
  - reflexivity.
  - split; [lia | reflexivity].
Defined.

(** ** The chunks of a recording *)

Lemma chunk_start_next (k : Z) : (chunk_start k + CHUNK_SECONDS)%Q = chunk_start (k + 1).
Proof.
  unfold chunk_start, CHUNK_SECONDS, inject_Z, Qplus. cbn [Qnum Qden].
  change (1 * 1)%positive with 1%positive. f_equal. lia.
Qed.

Lemma chunk_start_Qeq (k : Z) : (chunk_start k == 30 * inject_Z k)%Q.
Proof. unfold chunk_start. rewrite inject_Z_mult. reflexivity. Qed.

Lemma chunk_start_lt (D : Q) (k : Z) :
  (chunk_start k < D)%Q <-> k < chunk_count D.
Proof.
  unfold chunk_count, CHUNK_SECONDS. rewrite chunk_start_Qeq.
  pose proof (Qle_ceiling (D / 30)) as Hle.
  pose proof (Qceiling_lt (D / 30)) as Hlt.
  assert (D == 30 * (D / 30))%Q as HD by (field; discriminate).
  revert Hle Hlt HD. generalize (D / 30)%Q as x. intros x Hle Hlt HD.
  rewrite HD. clear HD.
  split; intros H.
  - rewrite Zlt_Qlt. lra.
  - assert (k <= Qceiling x - 1) as H' by lia.
    rewrite Zle_Qle in H'. lra.
Qed.

Lemma chunk_ranges_from (D : Q) (n : nat) :
  forall (fuel : nat) (k : Z),
    (n < fuel)%nat -> chunk_count D = k + Z.of_nat n -> 
    chunk_ranges fuel D (chunk_start k) = Ok (map (range_of D) (zrange k n)).
Proof.
  induction n as [| n IH]; intros fuel k Hf Hc;
    (destruct fuel as [| fuel]; [lia |]); cbn [chunk_ranges].
  - assert (Qltb (chunk_start k) D = false) as ->; [| reflexivity].
    apply Qltb_ge. apply Qnot_lt_le. rewrite chunk_start_lt. lia.
  - assert (Qltb (chunk_start k) D = true) as ->
        by (apply Qltb_lt, chunk_start_lt; lia).
    rewrite chunk_start_next, IH by lia.
    cbn [bind zrange map]. unfold range_of at 2. now rewrite chunk_start_next.
Qed.

Lemma chunk_count_nonneg (D : Q) : (0 <= D)%Q -> 0 <= chunk_count D.
Proof.
  intros H. unfold chunk_count, CHUNK_SECONDS.
  rewrite <- (Qceiling_Z 0). apply Qceiling_resp_le. unfold inject_Z.
  apply Qle_shift_div_l; lra.
Qed.

(** The loop visits the chunks 0, 1, ..., [chunk_count D - 1] and stops. *)
Lemma chunkRanges_value (D : Q) :
  (0 <= D)%Q ->
  chunkRanges D = Ok (map (range_of D) (zrange 0 (Z.to_nat (chunk_count D)))).
Proof.
  intros H. pose proof (chunk_count_nonneg D H).
  unfold chunkRanges, loop_bound. fold (chunk_count D).
  change 0%Q with (chunk_start 0). apply chunk_ranges_from; lia.
Qed.

Lemma nth_error_zrange (n : nat) :
  forall lo j, nth_error (zrange lo n) j = if (j <? n)%nat then Some (lo + Z.of_nat j) else None.
Proof.
  induction n as [| n IH]; intros lo [| j]; cbn [zrange nth_error]; try reflexivity.
  - change (0 <? S n)%nat with true. cbv iota. f_equal. lia.
  - rewrite IH. change (S j <? S n)%nat with (j <? n)%nat.
    destruct (j <? n)%nat; [f_equal; lia | reflexivity].
Qed.

Lemma zrange_length (n : nat) : forall lo, length (zrange lo n) = n.
Proof. induction n as [| n IH]; intros lo; simpl; [reflexivity | now rewrite IH]. Qed.

Lemma nth_error_ranges (D : Q) (n j : nat) (r : Q * Q) :
  nth_error (map (range_of D) (zrange 0 n)) j = Some r ->
  (j < n)%nat /\ r = range_of D (Z.of_nat j).
Proof.
  rewrite nth_error_map, nth_error_zrange.
  destruct (Nat.ltb_spec j n); cbn [option_map]; [| discriminate].
  intros [= <-]. split; [assumption | reflexivity].
Qed.

(** Chunk [k] ends where chunk [k + 1] starts, or at [D] when it is the last. *)
Lemma range_of_end (D : Q) (k : Z) :
  0 <= k < chunk_count D ->
  (snd (range_of D k) == if k + 1 <? chunk_count D then chunk_start (k + 1) else D)%Q.
Proof.
  intros Hk. unfold range_of. cbn [snd]. rewrite chunk_start_next.
  destruct (Z.ltb_spec (k + 1) (chunk_count D)) as [Hlt | Hge].
  - apply Q.min_l. apply Qlt_le_weak, chunk_start_lt. exact Hlt.
  - apply Q.min_r. apply Qnot_lt_le. rewrite chunk_start_lt. lia.
Qed.

Lemma range_of_positive (D : Q) (k : Z) :
  0 <= k < chunk_count D ->
  (fst (range_of D k) < snd (range_of D k))%Q
  /\ (snd (range_of D k) - fst (range_of D k) <= CHUNK_SECONDS)%Q.
Proof.
  intros Hk. unfold range_of. cbn [fst snd].
  assert (chunk_start k < D)%Q as Hlt by (apply chunk_start_lt; lia).
  pose proof (Q.le_min_l (chunk_start k + CHUNK_SECONDS) D).
  split; [| lra].
  apply Q.min_glb_lt; [unfold CHUNK_SECONDS; lra | exact Hlt].
Qed.

(** C1: for every duration [D >= 0] the chunk loop runs to its exit test
    and visits [ceil (D / 30)] ranges (none when [D = 0]); the first starts
    at 0, each ends where the next starts, ranges never overlap, the last
    ends at [D], and every range is non-empty and at most 30 seconds long. *)
Theorem chunk_loop_partitions_the_timeline (D : Q) :
  (0 <= D)%Q ->
  exists ranges : list (Q * Q),
    chunkRanges D = Ok ranges
    /\ Z.of_nat (length ranges) = Qceiling (D / 30)
    /\ (D == 0 -> ranges = [])%Q
    /\ (forall r, nth_error ranges 0 = Some r -> fst r == 0)%Q
    /\ (forall j r r', nth_error ranges j = Some r -> nth_error ranges (S j) = Some r' ->
                       snd r == fst r')%Q
    /\ (forall j j' r r', (j < j')%nat -> nth_error ranges j = Some r ->
                          nth_error ranges j' = Some r' -> snd r <= fst r')%Q
    /\ (forall r, nth_error ranges (length ranges - 1) = Some r -> snd r == D)%Q
    /\ (forall r, In r ranges -> fst r < snd r /\ snd r - fst r <= 30)%Q.
Proof.
  intros HD. pose proof (chunk_count_nonneg D HD) as Hn.
  exists (map (range_of D) (zrange 0 (Z.to_nat (chunk_count D)))).
  split; [now apply chunkRanges_value |].
  assert (length (map (range_of D) (zrange 0 (Z.to_nat (chunk_count D))))
          = Z.to_nat (chunk_count D)) as Hlen
      by (now rewrite length_map, zrange_length).
  split; [rewrite Hlen; unfold chunk_count, CHUNK_SECONDS in *; lia |].
  split.
  { intros H0. assert (chunk_count D = 0) as ->; [| reflexivity].
    unfold chunk_count. rewrite <- (Qceiling_Z 0). apply Qceiling_comp.
    rewrite H0. reflexivity. }
  split.
  { intros r Hr. apply nth_error_ranges in Hr as [_ ->]. reflexivity. }
  split.
  { intros j r r' Hr Hr'.
    apply nth_error_ranges in Hr as [Hj ->]. apply nth_error_ranges in Hr' as [Hj' ->].
    rewrite range_of_end by lia.
    destruct (Z.ltb_spec (Z.of_nat j + 1) (chunk_count D)); [| lia].
    cbn [range_of fst]. now rewrite Nat2Z.inj_succ. }
  split.
  { intros j j' r r' Hjj Hr Hr'.
    apply nth_error_ranges in Hr as [Hj ->]. apply nth_error_ranges in Hr' as [Hj' ->].
    rewrite range_of_end by lia.
    destruct (Z.ltb_spec (Z.of_nat j + 1) (chunk_count D)); [| lia].
    cbn [range_of fst]. rewrite !chunk_start_Qeq.
    assert (Z.of_nat j + 1 <= Z.of_nat j') as Hle by lia.
    rewrite Zle_Qle in Hle. lra. }
  split.
  { intros r Hr. rewrite Hlen in Hr.
    apply nth_error_ranges in Hr as [Hj ->].
    rewrite range_of_end by lia.
    destruct (Z.ltb_spec (Z.of_nat (Z.to_nat (chunk_count D) - 1) + 1) (chunk_count D));
      [lia | reflexivity]. }
  intros r Hr. apply In_nth_error in Hr as [j Hj].
  apply nth_error_ranges in Hj as [Hj ->].
  apply range_of_positive. lia.
Qed.

Lemma chunk_loop_partitions_the_timeline_witness :
  exists ranges : list (Q * Q),
    chunkRanges 65 = Ok ranges
    /\ Z.of_nat (length ranges) = Qceiling (65 / 30)
    /\ (65 == 0 -> ranges = [])%Q
    /\ (forall r, nth_error ranges 0 = Some r -> fst r == 0)%Q
    /\ (forall j r r', nth_error ranges j = Some r -> nth_error ranges (S j) = Some r' ->
                       snd r == fst r')%Q
    /\ (forall j j' r r', (j < j')%nat -> nth_error ranges j = Some r ->
                          nth_error ranges j' = Some r' -> snd r <= fst r')%Q
    /\ (forall r, nth_error ranges (length ranges - 1) = Some r -> snd r == 65)%Q
    /\ (forall r, In r ranges -> fst r < snd r /\ snd r - fst r <= 30)%Q.
Proof.
  apply (chunk_loop_partitions_the_timeline 65). unfold Qle; simpl; lia.
Defined.

Example chunkRanges_65 : chunkRanges 65 = Ok [(0, 30); (30, 60); (60, 65)]%Q.
Proof. reflexivity. Qed.

(** ** Runs: decoded buffers *)

Lemma valid_buffer_duration (b : AudioBuffer) :
  valid_buffer b -> (0 <= duration b)%Q /\ (duration b <= 4294967296)%Q.
Proof.
  intros (Hr & _ & [Hf0 Hf1] & Hd).
  rewrite Zle_Qle in Hf0. rewrite Zlt_Qlt in Hf1.
  change (inject_Z 0) with 0%Q in Hf0.
  change (inject_Z (2 ^ 32)) with 4294967296%Q in Hf1.
  rewrite <- Hd in Hf0, Hf1.
  split.
  - destruct (Qlt_le_dec (duration b) 0) as [Hneg | Hpos]; [| exact Hpos].
    exfalso. assert (duration b * sampleRate b < 0)%Q; [| lra].
    setoid_replace 0%Q with (0 * sampleRate b)%Q by ring.
    apply Qmult_lt_compat_r; lra.
  - destruct (Qlt_le_dec 4294967296 (duration b)) as [Hbig | Hle]; [| exact Hle].
    exfalso. assert (duration b * 1 <= duration b * sampleRate b)%Q; [| lra].
    rewrite (Qmult_comm (duration b) 1), (Qmult_comm (duration b) (sampleRate b)).
    apply Qmult_le_compat_r; lra.
Qed.

(** *** The payload of a chunk *)

Lemma Qceiling_positive (x : Q) : (0 < x)%Q -> 1 <= Qceiling x.
Proof.
  intros H. pose proof (Qle_ceiling x) as Hc.
  assert (inject_Z 0 < inject_Z (Qceiling x))%Q as H' by (unfold inject_Z at 1; lra).
  rewrite <- Zlt_Qlt in H'. lia.
Qed.

Lemma copy_channels_ok (startOffset frameCount : Z) (zeros : list number) :
  length zeros = Z.to_nat frameCount ->
  forall mainChannels : list (list number),
  exists d,
    copy_channels mainChannels (repeat zeros (length mainChannels)) startOffset frameCount
    = Ok d.
Proof.
  intros Hz. induction mainChannels as [| c cs [d IH]]; [now exists [] |].
  cbn [length repeat copy_channels]. unfold TypedArray_set.
  assert (length (subarray c startOffset (startOffset + frameCount)) <= length zeros)%nat
    as Hle.
  { unfold subarray. rewrite Hz.
    replace (startOffset + frameCount - startOffset) with frameCount by lia.
    apply firstn_le_length. }
  apply Nat.leb_le in Hle. rewrite Hle. cbn [bind]. rewrite IH. cbn [bind].
  eauto.
Qed.

Lemma chunk_payload_ok (b : AudioBuffer) (s e : Q) :
  valid_buffer b -> (s < e)%Q -> exists p, chunk_payload b s e = Ok p.
Proof.
  intros (Hr & Hc & _ & _) Hse. unfold chunk_payload, createBuffer.
  set (frameCount := Math_ceil ((e - s) * sampleRate b)).
  assert (1 <= frameCount) as Hfc.
  { apply Qceiling_positive. apply Qmult_lt_0_compat; lra. }
  apply Z.leb_le in Hc as Hc'. apply Z.leb_le in Hfc as Hfc'.
  assert (Qltb 0 (sampleRate b) = true) as Hr' by (apply Qltb_lt; lra).
  rewrite Hc', Hfc', Hr'. cbn [andb bind channelData].
  unfold numberOfChannels at 1. rewrite Nat2Z.id.
  destruct (copy_channels_ok (Math_floor (s * sampleRate b)) frameCount
              (repeat (num 0) (Z.to_nat frameCount)) (repeat_length _ _)
              (channelData b)) as [d Hd].
  rewrite Hd. cbn [bind].
  rewrite audioBufferToWavBase64_value by (cbn [with_channelData frames]; lia).
  eauto.
Qed.

(** *** Timestamps *)

Lemma cue_value (LocalTZA : Z) (s e : Q) (text : jsstring) :
  (0 <= s)%Q -> (s <= e)%Q -> (e <= 4294967296)%Q ->
  cue LocalTZA s e text
  = Ok (stamp LocalTZA s ++ lit " --> " ++ stamp LocalTZA e ++ [LF] ++ text ++ [LF; LF]).
Proof.
  intros H0 H1 H2. unfold cue.
  rewrite !formatTimeVTT_time_part by lra. reflexivity.
Qed.

(** *** One iteration *)

Lemma currentChunk_value (k : Z) :
  Math_floor (chunk_start k / CHUNK_SECONDS) + 1 = k + 1.
Proof.
  unfold Math_floor. f_equal. rewrite <- (Qfloor_Z k) at 2. apply Qfloor_comp.
  rewrite chunk_start_Qeq. unfold CHUNK_SECONDS. field.
Qed.

Section Iteration.

Variable LocalTZA : Z.
Variable env : Env.
Variable mainAudioBuffer : AudioBuffer.
Variable generationStartTime : Q.
Variable chunkCount : Z.
Hypothesis Hvalid : valid_buffer mainAudioBuffer.

Let D := duration mainAudioBuffer.

Lemma range_within (k : Z) :
  0 <= k < chunk_count D ->
  (0 <= fst (range_of D k))%Q
  /\ (fst (range_of D k) < snd (range_of D k))%Q
  /\ (snd (range_of D k) <= 4294967296)%Q.
Proof.
  intros Hk. destruct (valid_buffer_duration _ Hvalid) as [_ Hhi]. fold D in Hhi.
  destruct (range_of_positive D k Hk) as [Hpos _].
  split; [| split; [exact Hpos |]].
  - cbn [range_of fst]. rewrite chunk_start_Qeq.
    assert (inject_Z 0 <= inject_Z k)%Q by (rewrite <- Zle_Qle; lia).
    unfold inject_Z at 1 in H. lra.
  - cbn [range_of snd]. pose proof (Q.le_min_r (chunk_start k + CHUNK_SECONDS) D). lra.
Qed.

Lemma chunk_body_call (k : Z) (app : App) (vttContent : jsstring) :
  0 <= k < chunk_count D ->
  exists app',
    called env mainAudioBuffer k app app'
    /\ chunk_body LocalTZA env mainAudioBuffer generationStartTime chunkCount
         (chunk_start k) app vttContent
       = (app',
          match generateContent env (k + 1) with
          | Reject => Throw RemoteError
          | Resolve None => Throw TypeError
          | Resolve (Some _) => Ok (vttContent ++ block LocalTZA env D k)
          end).
Proof.
  intros Hk. destruct (range_within k Hk) as (H0 & H1 & H2).
  cbn [range_of fst snd] in H0, H1, H2.
  unfold chunk_body. cbv zeta. fold D. rewrite !currentChunk_value.
  destruct (chunk_payload_ok mainAudioBuffer _ _ Hvalid H1) as [p Hp].
  rewrite Hp.
  match goal with
  | |- context [send ?r ?a] => set (app1 := send r a)
  end.
  set (app2 := if cancelDuringCall env (k + 1) then cancel_click app1 else app1).
  exists app2. split.
  - unfold called, app2, app1.
    destruct (1 <? k + 1), (cancelDuringCall env (k + 1));
      (split; [reflexivity | split]);
      try (unfold sent; cbn [requests cancel_click send updateStatus
                               set_isGenerationCancelled];
           rewrite map_app; reflexivity);
      cbn [isGenerationCancelled cancel_click send updateStatus
             set_isGenerationCancelled];
      destruct (isGenerationCancelled app); reflexivity.
  - f_equal. unfold block, subtitle.
    destruct (generateContent env (k + 1)) as [[text |] |]; try reflexivity.
    destruct (replace_newlines (trim text)) as [| c text']; [now rewrite app_nil_r |].
    cbn [range_of fst snd]. rewrite cue_value by lra. reflexivity.
Qed.
End Iteration.

(** *** The loop *)

Lemma zrange_snoc (m : nat) : forall k, zrange k (S m) = zrange k m ++ [k + Z.of_nat m].
Proof.
  induction m as [| m IH]; intros k.
  - cbn [zrange app Z.of_nat]. now rewrite Z.add_0_r.
  - change (zrange k (S (S m))) with (k :: zrange (k + 1) (S m)).
    rewrite IH. cbn [zrange app]. do 3 f_equal. lia.
Qed.

Section Loop.

Variable LocalTZA : Z.
Variable env : Env.
Variable mainAudioBuffer : AudioBuffer.
Variable generationStartTime : Q.
Variable chunkCount : Z.
Hypothesis Hvalid : valid_buffer mainAudioBuffer.

Let D := duration mainAudioBuffer.
Let loop := fun fuel =>
  chunk_loop LocalTZA env fuel mainAudioBuffer generationStartTime chunkCount.

(** Past the last chunk the loop returns. *)
Lemma chunk_loop_exit (fuel : nat) (k : Z) (app : App) (vtt : jsstring) :
  chunk_count D <= k ->
  loop (S fuel) (chunk_start k) app vtt = (app, Ok vtt).
Proof.
  intros Hk. unfold loop. cbn [chunk_loop]. fold D.
  assert (Qltb (chunk_start k) D = false) as ->; [| reflexivity].
  apply Qltb_ge, Qnot_lt_le. rewrite chunk_start_lt. lia.
Qed.

(** With the flag set the loop breaks before any work on the chunk. *)
Lemma chunk_loop_break (fuel : nat) (k : Z) (app : App) (vtt : jsstring) :
  isGenerationCancelled app = true ->
  loop (S fuel) (chunk_start k) app vtt = (app, Ok vtt).
Proof.
  intros Hc. unfold loop. cbn [chunk_loop]. rewrite Hc.
  now destruct (Qltb (chunk_start k) (duration mainAudioBuffer)).
Qed.

(** An iteration whose call resolves is followed by the next one. *)
Lemma chunk_loop_step (fuel : nat) (k : Z) (app : App) (vtt : jsstring) :
  0 <= k < chunk_count D ->
  isGenerationCancelled app = false ->
  resolves env (k + 1) ->
  exists app',
    called env mainAudioBuffer k app app'
    /\ loop (S fuel) (chunk_start k) app vtt
       = loop fuel (chunk_start (k + 1)) app' (vtt ++ block LocalTZA env D k).
Proof.
  intros Hk Hc [text Ht].
  destruct (chunk_body_call LocalTZA env mainAudioBuffer generationStartTime
              chunkCount Hvalid k app vtt Hk) as (app' & Hcalled & Hbody).
  exists app'. split; [exact Hcalled |].
  unfold loop. cbn [chunk_loop]. fold D.
  assert (Qltb (chunk_start k) D = true) as ->
      by (apply Qltb_lt, chunk_start_lt; lia).
  rewrite Hc, Hbody, Ht, chunk_start_next. reflexivity.
Qed.

(** An iteration whose call fails ends the loop with an exception. *)
Lemma chunk_loop_throw (fuel : nat) (k : Z) (app : App) (vtt : jsstring) :
  0 <= k < chunk_count D ->
  isGenerationCancelled app = false ->
  fails env (k + 1) ->
  exists app' e,
    called env mainAudioBuffer k app app'
    /\ loop (S fuel) (chunk_start k) app vtt = (app', Throw e).
Proof.
  intros Hk Hc Hf.
  destruct (chunk_body_call LocalTZA env mainAudioBuffer generationStartTime
              chunkCount Hvalid k app vtt Hk) as (app' & Hcalled & Hbody).
  exists app'.
  exists (match generateContent env (k + 1) with Reject => RemoteError | _ => TypeError end).
  split; [exact Hcalled |].
  unfold loop. cbn [chunk_loop]. fold D.
  assert (Qltb (chunk_start k) D = true) as ->
      by (apply Qltb_lt, chunk_start_lt; lia).
  rewrite Hc, Hbody. destruct Hf as [-> | ->]; reflexivity.
Qed.

(** [m] iterations in a row: the calls for the chunks [k + 1], ...,
    [k + m] resolve, and the cancel button is not clicked during the
    first [m - 1] of them. *)
Lemma chunk_loop_prefix (m : nat) :
  forall (fuel : nat) (k : Z) (app : App) (vtt : jsstring),
    0 <= k -> k + Z.of_nat m <= chunk_count D ->
    isGenerationCancelled app = false ->
    (forall j, k < j <= k + Z.of_nat m -> resolves env j) ->
    (forall j, k < j < k + Z.of_nat m -> cancelDuringCall env j = false) ->
    exists app',
      store app' = store app
      /\ sent app' = sent app ++ calls D k m
      /\ isGenerationCancelled app'
         = match m with O => false | S _ => cancelDuringCall env (k + Z.of_nat m) end
      /\ loop (m + fuel) (chunk_start k) app vtt
         = loop fuel (chunk_start (k + Z.of_nat m)) app'
             (vtt ++ flat_map (block LocalTZA env D) (zrange k m)).
Proof.
  induction m as [| m IH]; intros fuel k app vtt Hk Hm Hc Hres Hcan.
  - exists app. cbn [calls zrange map flat_map Nat.add Z.of_nat].
    rewrite !app_nil_r, Z.add_0_r. auto.
  - destruct (chunk_loop_step (m + fuel) k app vtt ltac:(lia) Hc
                (Hres (k + 1) ltac:(lia))) as (app1 & (Hs1 & Hsent1 & Hflag1) & Hstep).
    rewrite Hc in Hflag1. cbn [orb] in Hflag1.
    change (S m + fuel)%nat with (S (m + fuel)). rewrite Hstep.
    destruct m as [| m'].
    + exists app1. cbn [calls zrange map flat_map Nat.add Z.of_nat].
      rewrite app_nil_r. change (Z.of_nat 1) with 1. auto.
    + destruct (IH fuel (k + 1) app1 (vtt ++ block LocalTZA env D k))
        as (app' & Hs & Hsent & Hflag & Hloop).
      * lia.
      * lia.
      * rewrite Hflag1. apply Hcan. lia.
      * intros j Hj. apply Hres. lia.
      * intros j Hj. apply Hcan. lia.
      * exists app'.
        replace (k + Z.of_nat (S (S m'))) with (k + 1 + Z.of_nat (S m')) by lia.
        split; [congruence |]. split; [| split; [exact Hflag |]].
        -- rewrite Hsent, Hsent1, <- app_assoc. reflexivity.
        -- rewrite Hloop, <- app_assoc. reflexivity.
Qed.

End Loop.

(** *** Runs of [transcribeAudio] *)

Section Transcribe.

Variable LocalTZA : Z.
Variable env : Env.
Variable mainAudioBuffer : AudioBuffer.
Variable file : File.
Hypothesis Hvalid : valid_buffer mainAudioBuffer.
Hypothesis Hdecode : decodeAudioData env = Ok mainAudioBuffer.

Local Abbreviation D := (duration mainAudioBuffer).

Lemma loop_bound_split (m : nat) :
  Z.of_nat m <= chunk_count D ->
  loop_bound D = (m + S (Z.to_nat (chunk_count D) - m))%nat.
Proof. intros H. unfold loop_bound. fold (chunk_count D). lia. Qed.

(** The state in which the loop is entered. *)
Lemma transcribeAudio_enters (generationStartTime : Q) (app : App) :
  currentFile app = Some file ->
  exists app0,
    store app0 = store app /\ sent app0 = sent app
    /\ isGenerationCancelled app0 = isGenerationCancelled app || cancelWhileDecoding env
    /\ transcribeAudio LocalTZA env generationStartTime app
       = chunk_loop LocalTZA env (loop_bound D) mainAudioBuffer generationStartTime
           (Math_ceil (D / CHUNK_SECONDS)) (chunk_start 0) app0 header.
Proof.
  intros Hf. unfold transcribeAudio. rewrite Hf, Hdecode.
  eexists. split; [| split; [| split; [| reflexivity]]].
  - destruct (cancelWhileDecoding env); unfold store; cbn; now rewrite Hf.
  - destruct (cancelWhileDecoding env); reflexivity.
  - destruct (cancelWhileDecoding env); cbn;
      destruct (isGenerationCancelled app); reflexivity.
Qed.

(** A run that gets through [m] calls and then finds the flag set, or no
    chunk left, returns the document of the first [m] chunks. *)
Lemma transcribeAudio_returns (generationStartTime : Q) (app : App) (m : nat) :
  currentFile app = Some file ->
  isGenerationCancelled app = false ->
  Z.of_nat m <= chunk_count D ->
  arrives env m ->
  Z.of_nat m = chunk_count D \/ clicked env m = true ->
  exists app',
    transcribeAudio LocalTZA env generationStartTime app
    = (app', Ok (document LocalTZA env D m))
    /\ store app' = store app
    /\ sent app' = sent app ++ calls D 0 m
    /\ isGenerationCancelled app' = clicked env m.
Proof.
  intros Hf Hc Hm (Hres & Hcan & Hdec) Hend.
  destruct (transcribeAudio_enters generationStartTime app Hf)
    as (app0 & Hs0 & Hsent0 & Hflag0 & ->).
  rewrite Hc in Hflag0. cbn [orb] in Hflag0.
  destruct m as [| m'].
  - cbn [clicked] in *. rewrite (loop_bound_split 0) by lia. cbn [Nat.add].
    exists app0. unfold document, calls. cbn [zrange flat_map map].
    rewrite !app_nil_r.
    split; [| auto].
    destruct (cancelWhileDecoding env) eqn:E.
    + apply chunk_loop_break. exact Hflag0.
    + apply chunk_loop_exit. destruct Hend as [He | He]; [rewrite <- He; lia | discriminate He].
  - rewrite (loop_bound_split (S m')) by lia.
    destruct (chunk_loop_prefix LocalTZA env mainAudioBuffer generationStartTime
                (Math_ceil (D / CHUNK_SECONDS)) Hvalid (S m')
                (S (Z.to_nat (chunk_count D) - S m')) 0 app0 header)
      as (app' & Hs & Hsent & Hflag & Hloop).
    + lia.
    + lia.
    + rewrite Hflag0. apply Hdec. discriminate.
    + intros j Hj. apply Hres. lia.
    + intros j Hj. apply Hcan. lia.
    + rewrite Hloop. exists app'. unfold document.
      rewrite Z.add_0_l in *. cbn [clicked] in *.
      split; [| split; [congruence | split; [congruence | exact Hflag]]].
      destruct (cancelDuringCall env (Z.of_nat (S m'))) eqn:E.
      * apply chunk_loop_break. exact Hflag.
      * apply chunk_loop_exit. destruct Hend as [He | He]; [rewrite <- He; lia | congruence].
Qed.

(** A run that gets through [m] calls and whose next call fails throws;
    the failed call is the last one made. *)
Lemma transcribeAudio_throws (generationStartTime : Q) (app : App) (m : nat) :
  currentFile app = Some file ->
  isGenerationCancelled app = false ->
  Z.of_nat m < chunk_count D ->
  arrives env m ->
  clicked env m = false ->
  fails env (Z.of_nat m + 1) ->
  exists app' e,
    transcribeAudio LocalTZA env generationStartTime app = (app', Throw e)
    /\ store app' = store app
    /\ sent app' = sent app ++ calls D 0 (S m)
    /\ isGenerationCancelled app' = cancelDuringCall env (Z.of_nat m + 1).
Proof.
  intros Hf Hc Hm (Hres & Hcan & Hdec) Hnc Hfail.
  destruct (transcribeAudio_enters generationStartTime app Hf)
    as (app0 & Hs0 & Hsent0 & Hflag0 & ->).
  rewrite Hc in Hflag0. cbn [orb] in Hflag0.
  rewrite (loop_bound_split m) by lia.
  destruct (chunk_loop_prefix LocalTZA env mainAudioBuffer generationStartTime
              (Math_ceil (D / CHUNK_SECONDS)) Hvalid m
              (S (Z.to_nat (chunk_count D) - m)) 0 app0 header)
    as (app1 & Hs1 & Hsent1 & Hflag1 & Hloop).
  - lia.
  - lia.
  - rewrite Hflag0. destruct m; [exact Hnc | apply Hdec; discriminate].
  - intros j Hj. apply Hres. lia.
  - intros j Hj. apply Hcan. lia.
  - rewrite Hloop. rewrite Z.add_0_l in *.
    assert (isGenerationCancelled app1 = false) as Hflag1'.
    { rewrite Hflag1. destruct m; [reflexivity | exact Hnc]. }
    destruct (chunk_loop_throw LocalTZA env mainAudioBuffer generationStartTime
                (Math_ceil (D / CHUNK_SECONDS)) Hvalid
                (Z.to_nat (chunk_count D) - m) (Z.of_nat m) app1
                (header ++ flat_map (block LocalTZA env D) (zrange 0 m)))
      as (app' & e & (Hs & Hsent & Hflag) & Hthrow).
    + lia.
    + exact Hflag1'.
    + exact Hfail.
    + exists app', e. rewrite Hthrow.
      split; [reflexivity | split; [congruence | split]].
      * rewrite Hsent, Hsent1, Hsent0, <- app_assoc. f_equal.
        unfold calls. rewrite zrange_snoc, map_app. reflexivity.
      * rewrite Hflag, Hflag1'. reflexivity.
Qed.

End Transcribe.

(** *** Runs of [generateSubtitles] *)

Lemma is_digit_code (d : Z) : 0 <= d <= 9 -> is_digit (48 + d) = true.
Proof. intros H. unfold is_digit. apply andb_true_intro. split; apply Z.leb_le; lia. Qed.

Lemma time_part_is_timestamp (t : Z) : is_timestamp (time_part t) = true.
Proof.
  unfold time_part.
  pose proof (Z.mod_pos_bound (t / Date.msPerHour) 24 ltac:(lia)).
  pose proof (Z.mod_pos_bound (t / Date.msPerMinute) 60 ltac:(lia)).
  pose proof (Z.mod_pos_bound (t / Date.msPerSecond) 60 ltac:(lia)).
  pose proof (Z.mod_pos_bound t 1000 ltac:(lia)).
  unfold Date.HourFromTime, Date.MinFromTime, Date.SecFromTime, Date.msFromTime,
    Date.msPerSecond in *.
  rewrite !pad2_digits by lia. rewrite pad3_digits by lia.
  cbn [app lit list_ascii_of_string map is_timestamp].
  rewrite !Z.eqb_refl.
  rewrite !is_digit_code by (Z.div_mod_to_equations; lia).
  reflexivity.
Qed.

Lemma subtitle_one_line (env : Env) (j : Z) : ~ In LF (subtitle env j).
Proof.
  unfold subtitle. destruct (generateContent env j) as [[text |] |]; try (intros []).
  unfold replace_newlines. intros H. apply in_map_iff in H as (c & Hc & _).
  destruct (Z.eqb_spec c LF); [discriminate | congruence].
Qed.

Section Generate.

Variable LocalTZA : Z.
Variable env : Env.
Variable mainAudioBuffer : AudioBuffer.
Variable file : File.
Variable app : App.
Hypothesis Hvalid : valid_buffer mainAudioBuffer.
Hypothesis Hdecode : decodeAudioData env = Ok mainAudioBuffer.
Hypothesis Hai : ai app = true.
Hypothesis Hfile : currentFile app = Some file.

Local Abbreviation D := (duration mainAudioBuffer).

Lemma started_facts :
  currentFile (started app) = Some file
  /\ isGenerationCancelled (started app) = false
  /\ store (started app) = store app
  /\ sent (started app) = sent app.
Proof. unfold started, store, sent. cbn. now rewrite Hfile. Qed.

Lemma generateSubtitles_unfold :
  generateSubtitles LocalTZA env app
  = let '(app1, r) := transcribeAudio LocalTZA env (now env 0) (started app) in
    match r with
    | Ok vttContent =>
        if isGenerationCancelled app1 then Ok (updateStatus MsgCancelled app1)
        else if (length header <? length vttContent)%nat
             then Ok (publish vttContent app1)
             else Ok (updateStatus MsgNoSubtitles app1)
    | Throw _ =>
        if isGenerationCancelled app1 then Ok (updateStatus MsgCancelled app1)
        else Ok (updateStatus MsgErrorOrCancelled (updateStatus MsgError app1))
    | OutOfFuel => OutOfFuel
    end.
Proof.
  unfold generateSubtitles. rewrite Hai. cbn [negb]. fold (started app).
  destruct (transcribeAudio LocalTZA env (now env 0) (started app)) as [app1 [v | e |]];
    cbn [bind updateStatus isGenerationCancelled]; reflexivity.
Qed.

(** A click before the run is through: the run ends as cancelled and the
    document that [transcribeAudio] returned is dropped. *)
Lemma generateSubtitles_cancelled (m : nat) :
  Z.of_nat m <= chunk_count D ->
  arrives env m ->
  clicked env m = true ->
  exists app',
    generateSubtitles LocalTZA env app = Ok app'
    /\ statusText app' = MsgCancelled
    /\ store app' = store app
    /\ sent app' = sent app ++ calls D 0 m
    /\ snd (transcribeAudio LocalTZA env (now env 0) (started app))
       = Ok (document LocalTZA env D m).
Proof.
  intros Hm Harr Hclick.
  destruct started_facts as (Hf & Hc & Hs & Hsent).
  destruct (transcribeAudio_returns LocalTZA env mainAudioBuffer file Hvalid Hdecode
              (now env 0) (started app) m Hf Hc Hm Harr (or_intror Hclick))
    as (app1 & Hrun & Hs1 & Hsent1 & Hflag1).
  rewrite generateSubtitles_unfold, Hrun. cbn [snd]. rewrite Hflag1, Hclick.
  eexists. split; [reflexivity |].
  split; [reflexivity |]. split; [| split; [| reflexivity]].
  - rewrite <- Hs, <- Hs1. reflexivity.
  - rewrite <- Hsent, <- Hsent1. reflexivity.
Qed.

(** A call that fails: the run ends in the error branch of line 310, or in
    the cancelled branch when the button was clicked during that call. *)
Lemma generateSubtitles_failed (m : nat) :
  Z.of_nat m < chunk_count D ->
  arrives env m ->
  clicked env m = false ->
  fails env (Z.of_nat m + 1) ->
  exists app',
    generateSubtitles LocalTZA env app = Ok app'
    /\ statusText app'
       = (if cancelDuringCall env (Z.of_nat m + 1) then MsgCancelled
          else MsgErrorOrCancelled)
    /\ store app' = store app
    /\ sent app' = sent app ++ calls D 0 (S m).
Proof.
  intros Hm Harr Hclick Hfail.
  destruct started_facts as (Hf & Hc & Hs & Hsent).
  destruct (transcribeAudio_throws LocalTZA env mainAudioBuffer file Hvalid Hdecode
              (now env 0) (started app) m Hf Hc Hm Harr Hclick Hfail)
    as (app1 & e & Hrun & Hs1 & Hsent1 & Hflag1).
  rewrite generateSubtitles_unfold, Hrun. rewrite Hflag1.
  destruct (cancelDuringCall env (Z.of_nat m + 1));
    (eexists; split; [reflexivity |]; split; [reflexivity |]; split;
     [rewrite <- Hs, <- Hs1; reflexivity | rewrite <- Hsent, <- Hsent1; reflexivity]).
Qed.

(** A run through all the chunks: the document is stored and attached when
    it has a cue, and reported as empty otherwise. *)
Lemma generateSubtitles_completed (n : nat) :
  Z.of_nat n = chunk_count D ->
  arrives env n ->
  clicked env n = false ->
  exists app',
    generateSubtitles LocalTZA env app = Ok app'
    /\ sent app' = sent app ++ calls D 0 n
    /\ ai app' = ai app /\ currentFile app' = currentFile app
    /\ if (length header <? length (document LocalTZA env D n))%nat
       then statusText app' = MsgCompleted
            /\ generatedVttContent app' = Some (document LocalTZA env D n)
            /\ subtitleTrack app' = Some (document LocalTZA env D n)
       else statusText app' = MsgNoSubtitles
            /\ generatedVttContent app' = generatedVttContent app
            /\ subtitleTrack app' = subtitleTrack app.
Proof.
  intros Hn Harr Hclick.
  destruct started_facts as (Hf & Hc & Hs & Hsent).
  destruct (transcribeAudio_returns LocalTZA env mainAudioBuffer file Hvalid Hdecode
              (now env 0) (started app) n Hf Hc ltac:(lia) Harr (or_introl Hn))
    as (app1 & Hrun & Hs1 & Hsent1 & Hflag1).
  rewrite generateSubtitles_unfold, Hrun. rewrite Hflag1, Hclick.
  assert (store app1 = store app) as Hst by congruence.
  unfold store in Hst. injection Hst as H1 H2 H3 H4.
  destruct (length header <? length (document LocalTZA env D n))%nat;
    (eexists; split; [reflexivity |]; split;
     [cbn; rewrite <- Hsent, <- Hsent1; reflexivity |]; cbn; auto).
Qed.

End Generate.

(** *** A two-minute recording *)

Lemma two_minutes_valid : valid_buffer two_minutes.
Proof.
  unfold valid_buffer, two_minutes, numberOfChannels.
  cbn [sampleRate frames channelData duration length].
  repeat split; try lia; try reflexivity. unfold Qle; simpl; lia.
Qed.

Lemma two_minutes_chunks : chunk_count (duration two_minutes) = 4.
Proof. reflexivity. Qed.

Lemma arrives_click_during_chunk_2 : arrives click_during_chunk_2 2.
Proof.
  repeat split.
  - intros j _. now exists (lit "hello").
  - intros j Hj. cbn. apply Z.eqb_neq. lia.
Qed.

Lemma arrives_reject_chunk_2 (click : bool) : arrives (reject_chunk_2 click) 1.
Proof.
  repeat split.
  - intros j Hj. exists (lit "hello"). cbn.
    destruct (Z.eqb_spec j 2); [lia | reflexivity].
  - intros j Hj. lia.
Qed.

(** C3, as the code has it: if the cancel button is clicked while the call
    for chunk [k] is in flight (while the file is decoded, for [k = 0]) and
    chunks remain, the run ends with the cancelled message, exactly the
    calls for the chunks 1..[k] were made, [transcribeAudio] has returned the
    document of the chunks 1..[k], and [generateSubtitles] drops it:
    [generatedVttContent] and the subtitle track are left as they were. *)
Theorem cancel_after_chunk_k_drops_the_partial_document
    (LocalTZA : Z) (env : Env) (mainAudioBuffer : AudioBuffer) (file : File)
    (app : App) (k : nat) :
  valid_buffer mainAudioBuffer ->
  decodeAudioData env = Ok mainAudioBuffer ->
  ai app = true -> currentFile app = Some file ->
  Z.of_nat k < chunk_count (duration mainAudioBuffer) ->
  arrives env k -> clicked env k = true ->
  exists app',
    generateSubtitles LocalTZA env app = Ok app'
    /\ statusText app' = MsgCancelled
    /\ sent app' = sent app ++ calls (duration mainAudioBuffer) 0 k
    /\ snd (transcribeAudio LocalTZA env (now env 0) (started app))
       = Ok (document LocalTZA env (duration mainAudioBuffer) k)
    /\ generatedVttContent app' = generatedVttContent app
    /\ subtitleTrack app' = subtitleTrack app.
Proof.
  intros Hvalid Hdecode Hai Hfile Hk Harr Hclick.
  destruct (generateSubtitles_cancelled LocalTZA env mainAudioBuffer file app
              Hvalid Hdecode Hai Hfile k ltac:(lia) Harr Hclick)
    as (app' & Hrun & Hstatus & Hstore & Hsent & Hdoc).
  exists app'. unfold store in Hstore. injection Hstore as H1 H2 H3 H4. auto 10.
Qed.

Lemma cancel_after_chunk_k_drops_the_partial_document_witness :
  exists app',
    generateSubtitles 0 click_during_chunk_2 loaded = Ok app'
    /\ statusText app' = MsgCancelled
    /\ sent app' = sent loaded ++ calls (duration two_minutes) 0 2
    /\ snd (transcribeAudio 0 click_during_chunk_2 (now click_during_chunk_2 0)
              (started loaded))
       = Ok (document 0 click_during_chunk_2 (duration two_minutes) 2)
    /\ generatedVttContent app' = generatedVttContent loaded
    /\ subtitleTrack app' = subtitleTrack loaded.
Proof.
  apply (cancel_after_chunk_k_drops_the_partial_document 0 click_during_chunk_2
           two_minutes {| name := lit "movie.mp4" |} loaded 2).
  - exact two_minutes_valid.
  - reflexivity.
  - reflexivity.
  - reflexivity.
  - rewrite two_minutes_chunks. lia.
  - exact arrives_click_during_chunk_2.
  - reflexivity.
Defined.

(** C3 fails as stated: four chunks, a click during the call for chunk 2.
    The run ends as cancelled after two calls, [transcribeAudio] has
    returned a document with two cues, and nothing is surfaced: no stored
    document, no track, nothing to download. *)
Lemma cancelled_run_surfaces_no_document :
  exists app',
    generateSubtitles 0 click_during_chunk_2 loaded = Ok app'
    /\ statusText app' = MsgCancelled
    /\ map fst (sent app') = [1; 2]
    /\ snd (transcribeAudio 0 click_during_chunk_2 (now click_during_chunk_2 0)
              (started loaded))
       = Ok (lit "WEBVTT" ++ [LF; LF]
             ++ lit "00:00:00.000 --> 00:00:30.000" ++ [LF] ++ lit "hello" ++ [LF; LF]
             ++ lit "00:00:30.000 --> 00:01:00.000" ++ [LF] ++ lit "hello" ++ [LF; LF])
    /\ generatedVttContent app' = None
    /\ subtitleTrack app' = None
    /\ snd (downloadVttFile app') = None.
Proof.
  destruct (generateSubtitles_cancelled 0 click_during_chunk_2 two_minutes
              {| name := lit "movie.mp4" |} loaded two_minutes_valid eq_refl eq_refl
              eq_refl 2 ltac:(rewrite two_minutes_chunks; lia)
              arrives_click_during_chunk_2 eq_refl)
    as (app' & Hrun & Hstatus & Hstore & Hsent & Hdoc).
  exists app'. unfold store in Hstore. injection Hstore as H1 H2 H3 H4.
  cbn [generatedVttContent subtitleTrack loaded] in H2, H4.
  split; [exact Hrun |]. split; [exact Hstatus |].
  split; [rewrite Hsent; reflexivity |].
  split; [rewrite Hdoc; reflexivity |].
  split; [exact H2 |]. split; [exact H4 |].
  unfold downloadVttFile. rewrite H2. reflexivity.
Qed.

(** C4, as the code has it: if the call for chunk [m + 1] fails, no document
    is stored or attached and the failed call is the last one made; the run
    ends with the error message of line 310 when the cancel button was not
    clicked during that call, and with the cancelled message when it was. *)
Theorem remote_failure_ends_the_run_without_a_document
    (LocalTZA : Z) (env : Env) (mainAudioBuffer : AudioBuffer) (file : File)
    (app : App) (m : nat) :
  valid_buffer mainAudioBuffer ->
  decodeAudioData env = Ok mainAudioBuffer ->
  ai app = true -> currentFile app = Some file ->
  Z.of_nat m < chunk_count (duration mainAudioBuffer) ->
  arrives env m -> clicked env m = false ->
  fails env (Z.of_nat m + 1) ->
  exists app',
    generateSubtitles LocalTZA env app = Ok app'
    /\ statusText app'
       = (if cancelDuringCall env (Z.of_nat m + 1) then MsgCancelled
          else MsgErrorOrCancelled)
    /\ generatedVttContent app' = generatedVttContent app
    /\ subtitleTrack app' = subtitleTrack app
    /\ sent app' = sent app ++ calls (duration mainAudioBuffer) 0 (S m).
Proof.
  intros Hvalid Hdecode Hai Hfile Hm Harr Hclick Hfail.
  destruct (generateSubtitles_failed LocalTZA env mainAudioBuffer file app
              Hvalid Hdecode Hai Hfile m Hm Harr Hclick Hfail)
    as (app' & Hrun & Hstatus & Hstore & Hsent).
  exists app'. unfold store in Hstore. injection Hstore as H1 H2 H3 H4. auto 10.
Qed.

Lemma remote_failure_ends_the_run_without_a_document_witness :
  exists app',
    generateSubtitles 0 (reject_chunk_2 false) loaded = Ok app'
    /\ statusText app' = MsgErrorOrCancelled
    /\ generatedVttContent app' = generatedVttContent loaded
    /\ subtitleTrack app' = subtitleTrack loaded
    /\ sent app' = sent loaded ++ calls (duration two_minutes) 0 2.
Proof.
  apply (remote_failure_ends_the_run_without_a_document 0 (reject_chunk_2 false)
           two_minutes {| name := lit "movie.mp4" |} loaded 1).
  - exact two_minutes_valid.
  - reflexivity.
  - reflexivity.
  - reflexivity.
  - rewrite two_minutes_chunks. lia.
  - exact (arrives_reject_chunk_2 false).
  - reflexivity.
  - left. reflexivity.
Defined.

(** C4 fails as stated: the call for chunk 2 of 4 is rejected while the
    cancel button has been clicked during it; the run ends with the cancelled
    message, not in the failed state. *)
Lemma failure_during_a_cancelled_call_ends_as_cancelled :
  generateContent (reject_chunk_2 true) 2 = Reject
  /\ exists app',
       generateSubtitles 0 (reject_chunk_2 true) loaded = Ok app'
       /\ map fst (sent app') = [1; 2]
       /\ statusText app' = MsgCancelled
       /\ statusText app' <> MsgErrorOrCancelled.
Proof.
  split; [reflexivity |].
  destruct (generateSubtitles_failed 0 (reject_chunk_2 true) two_minutes
              {| name := lit "movie.mp4" |} loaded two_minutes_valid eq_refl eq_refl
              eq_refl 1 ltac:(rewrite two_minutes_chunks; lia)
              (arrives_reject_chunk_2 true) eq_refl (or_introl eq_refl))
    as (app' & Hrun & Hstatus & Hstore & Hsent).
  exists app'. cbn in Hstatus.
  split; [exact Hrun |]. split; [rewrite Hsent; reflexivity |].
  split; [exact Hstatus |]. rewrite Hstatus. discriminate.
Qed.

(** C8: if the cancel button is clicked while the call for chunk [m + 1] is
    in flight, that call is still made and answered, its cue (when its text
    is non-empty) is appended to the document that [transcribeAudio]
    returns, and no call is made for a later chunk. *)
Theorem click_during_a_call_keeps_its_cue
    (LocalTZA : Z) (env : Env) (mainAudioBuffer : AudioBuffer) (file : File)
    (generationStartTime : Q) (app : App) (m : nat) :
  valid_buffer mainAudioBuffer ->
  decodeAudioData env = Ok mainAudioBuffer ->
  currentFile app = Some file -> isGenerationCancelled app = false ->
  Z.of_nat (S m) <= chunk_count (duration mainAudioBuffer) ->
  arrives env (S m) ->
  cancelDuringCall env (Z.of_nat (S m)) = true ->
  exists app',
    transcribeAudio LocalTZA env generationStartTime app
    = (app', Ok (document LocalTZA env (duration mainAudioBuffer) (S m)))
    /\ document LocalTZA env (duration mainAudioBuffer) (S m)
       = document LocalTZA env (duration mainAudioBuffer) m
         ++ block LocalTZA env (duration mainAudioBuffer) (Z.of_nat m)
    /\ sent app'
       = sent app ++ calls (duration mainAudioBuffer) 0 m
         ++ [(Z.of_nat (S m), range_of (duration mainAudioBuffer) (Z.of_nat m))].
Proof.
  intros Hvalid Hdecode Hfile Hflag Hm Harr Hclick.
  destruct (transcribeAudio_returns LocalTZA env mainAudioBuffer file Hvalid Hdecode
              generationStartTime app (S m) Hfile Hflag Hm Harr (or_intror Hclick))
    as (app' & Hrun & _ & Hsent & _).
  exists app'. split; [exact Hrun |]. split.
  - unfold document. rewrite zrange_snoc, flat_map_app. cbn [flat_map].
    now rewrite app_nil_r, app_assoc.
  - rewrite Hsent. unfold calls. rewrite zrange_snoc, map_app. cbn [map].
    rewrite Z.add_0_l. replace (Z.of_nat m + 1) with (Z.of_nat (S m)) by lia.
    reflexivity.
Qed.

Lemma click_during_a_call_keeps_its_cue_witness :
  exists app',
    transcribeAudio 0 click_during_chunk_2 0 loaded
    = (app', Ok (document 0 click_during_chunk_2 (duration two_minutes) 2))
    /\ document 0 click_during_chunk_2 (duration two_minutes) 2
       = document 0 click_during_chunk_2 (duration two_minutes) 1
         ++ block 0 click_during_chunk_2 (duration two_minutes) (Z.of_nat 1)
    /\ sent app'
       = sent loaded ++ calls (duration two_minutes) 0 1
         ++ [(Z.of_nat 2, range_of (duration two_minutes) (Z.of_nat 1))].
Proof.
  apply (click_during_a_call_keeps_its_cue 0 click_during_chunk_2 two_minutes
           {| name := lit "movie.mp4" |} 0 loaded 1).
  - exact two_minutes_valid.
  - reflexivity.
  - reflexivity.
  - reflexivity.
  - rewrite two_minutes_chunks. lia.
  - exact arrives_click_during_chunk_2.
  - reflexivity.
Defined.

(** The calls of a run through all the chunks carry the ranges of
    [chunkRanges], in order. *)
Lemma calls_are_chunk_ranges (D : Q) :
  (0 <= D)%Q ->
  chunkRanges D = Ok (map snd (calls D 0 (Z.to_nat (chunk_count D)))).
Proof.
  intros H. rewrite chunkRanges_value by exact H. unfold calls.
  rewrite map_map. reflexivity.
Qed.

(** A run through all the chunks calls the remote model once per range of
    [chunkRanges], in order. *)
Lemma full_run_calls_every_range
    (LocalTZA : Z) (env : Env) (mainAudioBuffer : AudioBuffer) (file : File)
    (generationStartTime : Q) (app : App) (n : nat) :
  valid_buffer mainAudioBuffer ->
  decodeAudioData env = Ok mainAudioBuffer ->
  currentFile app = Some file -> isGenerationCancelled app = false ->
  Z.of_nat n = chunk_count (duration mainAudioBuffer) ->
  arrives env n ->
  exists app' ranges,
    fst (transcribeAudio LocalTZA env generationStartTime app) = app'
    /\ chunkRanges (duration mainAudioBuffer) = Ok ranges
    /\ map snd (sent app') = map snd (sent app) ++ ranges.
Proof.
  intros Hvalid Hdecode Hfile Hflag Hn Harr.
  destruct (transcribeAudio_returns LocalTZA env mainAudioBuffer file Hvalid Hdecode
              generationStartTime app n Hfile Hflag ltac:(lia) Harr (or_introl Hn))
    as (app' & Hrun & _ & Hsent & _).
  exists app', (map snd (calls (duration mainAudioBuffer) 0 n)).
  split; [now rewrite Hrun |]. split.
  - rewrite calls_are_chunk_ranges by (apply valid_buffer_duration; exact Hvalid).
    rewrite <- Hn, Nat2Z.id. reflexivity.
  - rewrite Hsent, map_app. reflexivity.
Qed.

Lemma chunk_start_increasing (j k : Z) : j < k -> (chunk_start j < chunk_start k)%Q.
Proof. intros H. unfold chunk_start. rewrite <- Zlt_Qlt. lia. Qed.

(** C6: the document that [transcribeAudio] returns is the header line
    [WEBVTT] and a blank line, followed in chunk order by one block per
    chunk whose text is non-empty: a line [HH:MM:SS.mmm --> HH:MM:SS.mmm]
    (the two results of [formatTimeVTT], twelve characters each, digits
    zero-padded, three fractional digits), the text on one line, and a blank
    line.  The cue times, as passed to [formatTimeVTT], increase strictly
    from chunk to chunk and no two ranges overlap. *)
Theorem caption_document_format
    (LocalTZA : Z) (env : Env) (mainAudioBuffer : AudioBuffer) (file : File)
    (generationStartTime : Q) (app : App) (m : nat) :
  valid_buffer mainAudioBuffer ->
  decodeAudioData env = Ok mainAudioBuffer ->
  currentFile app = Some file -> isGenerationCancelled app = false ->
  Z.of_nat m <= chunk_count (duration mainAudioBuffer) ->
  arrives env m ->
  Z.of_nat m = chunk_count (duration mainAudioBuffer) \/ clicked env m = true ->
  snd (transcribeAudio LocalTZA env generationStartTime app)
  = Ok (lit "WEBVTT" ++ [LF; LF]
        ++ flat_map (block LocalTZA env (duration mainAudioBuffer)) (zrange 0 m))
  /\ (forall k, 0 <= k < Z.of_nat m ->
        let s := fst (range_of (duration mainAudioBuffer) k) in
        let e := snd (range_of (duration mainAudioBuffer) k) in
        let text := subtitle env (k + 1) in
        block LocalTZA env (duration mainAudioBuffer) k
        = match text with
          | [] => []
          | _ :: _ =>
              stamp LocalTZA s ++ lit " --> " ++ stamp LocalTZA e ++ [LF]
              ++ text ++ [LF; LF]
          end
        /\ formatTimeVTT LocalTZA (Fin s) = Ok (stamp LocalTZA s)
        /\ formatTimeVTT LocalTZA (Fin e) = Ok (stamp LocalTZA e)
        /\ is_timestamp (stamp LocalTZA s) = true
        /\ is_timestamp (stamp LocalTZA e) = true
        /\ ~ In LF text
        /\ (s < e)%Q)
  /\ (forall j k, 0 <= j < k -> k < Z.of_nat m ->
        (fst (range_of (duration mainAudioBuffer) j)
         < fst (range_of (duration mainAudioBuffer) k))%Q
        /\ (snd (range_of (duration mainAudioBuffer) j)
            <= fst (range_of (duration mainAudioBuffer) k))%Q).
Proof.
  intros Hvalid Hdecode Hfile Hflag Hm Harr Hend.
  destruct (transcribeAudio_returns LocalTZA env mainAudioBuffer file Hvalid Hdecode
              generationStartTime app m Hfile Hflag Hm Harr Hend)
    as (app' & Hrun & _).
  split; [rewrite Hrun; reflexivity |]. split.
  - intros k Hk s e text.
    destruct (range_within mainAudioBuffer Hvalid k ltac:(lia)) as (H0 & H1 & H2).
    fold s e in H0, H1, H2.
    split; [unfold block; fold s e text; now destruct text |].
    split; [apply formatTimeVTT_time_part; lra |].
    split; [apply formatTimeVTT_time_part; lra |].
    split; [apply time_part_is_timestamp |].
    split; [apply time_part_is_timestamp |].
    split; [apply subtitle_one_line | exact H1].
  - intros j k Hj Hk. split.
    + apply chunk_start_increasing. lia.
    + rewrite range_of_end by lia.
      destruct (Z.ltb_spec (j + 1) (chunk_count (duration mainAudioBuffer))); [| lia].
      cbn [range_of fst]. unfold chunk_start. rewrite <- Zle_Qle. lia.
Qed.

Lemma caption_document_format_witness :
  snd (transcribeAudio 0 click_during_chunk_2 0 loaded)
  = Ok (lit "WEBVTT" ++ [LF; LF]
        ++ flat_map (block 0 click_during_chunk_2 (duration two_minutes)) (zrange 0 2)).
Proof.
  refine (proj1 (caption_document_format 0 click_during_chunk_2 two_minutes
                   {| name := lit "movie.mp4" |} 0 loaded 2 two_minutes_valid
                   eq_refl eq_refl eq_refl _ arrives_click_during_chunk_2
                   (or_intror eq_refl))).
  rewrite two_minutes_chunks. lia.
Defined.
